(** * Session-progress aggregation of the teacher simulator (user-manager.js)

    A shallow embedding of the part of [UserManager] that folds a finished
    training session into the stored user document: [updateSkills],
    [calculateStreak], [getAchievementsToCheck], [checkAchievements],
    [createUserDocument], [loadUserData] and [saveSessionResults].

    - JavaScript Numbers are IEEE-754 binary64 values.  They are modelled
      with the Standard Library's executable specification of binary
      floating point ([SpecFloat], precision 53, emax 1024): [*], [+], [-],
      [/] are [SFmul], [SFadd], [SFsub], [SFdiv]; comparisons are
      [SFcompare].  [Math.round], [Math.floor] and [Math.min] are defined
      here on the same representation.
    - Objects used as maps (a skills object, the [achievements] field, the
      [users] collection) are [gmap]s keyed by strings.
    - [Date] values are integer milliseconds since the epoch ([Z]); the day
      difference of [calculateStreak] is taken over the integers, and is
      compared with its binary64 evaluation at the day boundaries.
    - The manager's mutable fields, the Firestore documents, the two clocks
      (the browser's and the server's) and the list of reported unlocks
      form an explicit [World] that every asynchronous method transforms.
      Calls to Firestore are taken to succeed unless the document they
      update is missing.
    - The fields of [progress] and [session.score], [session.duration] are
      Numbers (NaN and the infinities included); the values of a skills
      object may also be [undefined], [null] or a boolean. *)

From Stdlib Require Import ZArith Bool List Lia.
From Stdlib Require Import SpecFloat.
From stdpp Require Import base option list gmap strings.

Local Open Scope Z_scope.

(** ** Numbers: binary64 *)

Module Number.

Definition prec : Z := 53.
Definition emax : Z := 1024.

Definition number : Type := spec_float.

(** A triple [S754_finite s m e] denotes a binary64 value only when it is
    in canonical form (53 significant bits, or exponent -1074 for
    subnormals); the arithmetic of [SpecFloat] returns canonical triples
    on canonical arguments.  [Math_round], [Math_floor] and [Math_min]
    below answer NaN on a triple that is not canonical. *)
Definition is_binary64 (x : number) : bool := valid_binary prec emax x.

Definition NaN : number := S754_nan.
Definition Infinity : number := S754_infinity false.
Definition neg_Infinity : number := S754_infinity true.

(** Integer literals and integer results. *)
Definition of_Z (n : Z) : number := binary_normalize prec emax n 0 false.

Definition mul (x y : number) : number := SFmul prec emax x y.
Definition add (x y : number) : number := SFadd prec emax x y.
Definition sub (x y : number) : number := SFsub prec emax x y.
Definition div (x y : number) : number := SFdiv prec emax x y.

(** [x >= y], [x === y], [isNaN(x)] and [Number.isFinite(x)]. *)
Definition ge (x y : number) : bool := SFleb y x.
Definition strict_eq (x y : number) : bool := SFeqb x y.
Definition isNaN (x : number) : bool :=
  match x with S754_nan => true | _ => false end.
Definition isFinite (x : number) : bool :=
  match x with S754_nan | S754_infinity _ => false | _ => true end.

(** A decimal literal denotes the binary64 nearest to it; so does the
    correctly rounded quotient of the two integers that spell it. *)
Definition lit_0_7 : number := Eval vm_compute in div (of_Z 7) (of_Z 10).
Definition lit_0_3 : number := Eval vm_compute in div (of_Z 3) (of_Z 10).

(** [Math.round]: the integer nearest to [x], ties towards +Infinity;
    NaN, the infinities, the zeros and integral values are returned
    unchanged, and an argument in [-0.5, 0) gives -0.  The integer
    [floor (x + 1/2)] is computed exactly from the significand. *)
Definition Math_round (x : number) : number :=
  match x with
  | S754_finite s m e =>
      if negb (bounded prec emax m e) then S754_nan
      else if 0 <=? e then x
      else
        let sm := if s then Z.neg m else Z.pos m in
        let n := (2 * sm + 2 ^ (- e)) / 2 ^ (1 - e) in
        if n =? 0 then S754_zero s else of_Z n
  | _ => x
  end.

(** [Math.floor]: the largest integer not above [x]. *)
Definition Math_floor (x : number) : number :=
  match x with
  | S754_finite s m e =>
      if negb (bounded prec emax m e) then S754_nan
      else if 0 <=? e then x
      else
        let sm := if s then Z.neg m else Z.pos m in
        let n := sm / 2 ^ (- e) in
        if n =? 0 then S754_zero false else of_Z n
  | _ => x
  end.

(** [Math.min] of two arguments: NaN if either is NaN, otherwise the
    smaller one, with -0 below +0. *)
Definition Math_min (a b : number) : number :=
  if negb (is_binary64 a && is_binary64 b) then S754_nan
  else
    match SFcompare a b with
    | None => S754_nan
    | Some Lt => a
    | Some Gt => b
    | Some Eq => match a with S754_zero true => a | _ => b end
    end.

(** The SameValueZero comparison: NaN equals NaN and +0 equals -0. *)
Definition SameValueZero (x y : number) : bool :=
  (isNaN x && isNaN y) || SFeqb x y.

(** The integer a Number denotes, when it denotes one. *)
Definition to_Z (x : number) : option Z :=
  match x with
  | S754_zero _ => Some 0
  | S754_finite s m e =>
      let sm := if s then Z.neg m else Z.pos m in
      if 0 <=? e then Some (sm * 2 ^ e)
      else if sm mod 2 ^ (- e) =? 0 then Some (sm / 2 ^ (- e)) else None
  | _ => None
  end.

(** Structural equality of representations, as a boolean. *)
Definition same (x y : number) : bool :=
  match x, y with
  | S754_zero s, S754_zero s' => Bool.eqb s s'
  | S754_infinity s, S754_infinity s' => Bool.eqb s s'
  | S754_nan, S754_nan => true
  | S754_finite s m e, S754_finite s' m' e' =>
      Bool.eqb s s' && Pos.eqb m m' && Z.eqb e e'
  | _, _ => false
  end.

End Number.

Import Number.

(** ** Values, objects and exceptions *)

(** The values a skills object can hold under a key.  Reading a key that
    is not there yields [undefined]. *)
Inductive value : Type :=
  | VUndefined
  | VNull
  | VBool (b : bool)
  | VNum (x : number).

Definition prop (o : gmap string value) (k : string) : value :=
  default VUndefined (o !! k).

(** [ToNumber], applied by [>=] to its operands. *)
Definition ToNumber (v : value) : number :=
  match v with
  | VUndefined => NaN
  | VNull => of_Z 0
  | VBool b => if b then of_Z 1 else of_Z 0
  | VNum x => x
  end.

Inductive exn : Type :=
  | TypeError (msg : string)
  | Error (msg : string)
  | FirestoreError (code : string).

Definition message (e : exn) : string :=
  match e with
  | TypeError msg | Error msg | FirestoreError msg => msg
  end.

(** ** The stored user document and the session record *)

Record Progress : Type := {
  totalSessions : number;
  completedScenarios : number;
  averageScore : number;
  totalTimeSpent : number;
  streak : number;
  lastSessionDate : option Z
}.

(** An unlocked achievement as stored under [achievements.<id>]; the
    display strings copied from the definition (title, description, icon)
    play no part in the computation and are left out. *)
Record Achievement : Type := { unlockedAt : Z }.

Record UserDoc : Type := {
  progress : Progress;
  skills : gmap string value;
  achievements : gmap string Achievement
}.

(** [skillsGained = None] stands for a session object whose [skillsGained]
    is [undefined] or [null]. *)
Record SessionData : Type := {
  score : number;
  duration : number;
  skillsGained : option (gmap string value)
}.

(** ** updateSkills *)

Definition RECENT_WEIGHT : number := lit_0_3.
Definition HISTORY_WEIGHT : number := lit_0_7.

(** [typeof val === 'number' && !isNaN(val) ? val : 0] *)
Definition getVal (val : value) : number :=
  match val with
  | VNum x => if negb (isNaN x) then x else of_Z 0
  | _ => of_Z 0
  end.

(** [typeof val === 'number' && !isNaN(val) ? val : 50] *)
Definition getCur (val : value) : number :=
  match val with
  | VNum x => if negb (isNaN x) then x else of_Z 50
  | _ => of_Z 50
  end.

(** One entry of the returned object literal:
    [Math.min(100, Math.round(getCur(c) * HISTORY_WEIGHT + getVal(g) * RECENT_WEIGHT))]. *)
Definition blend (c g : value) : number :=
  Math_min (of_Z 100)
    (Math_round (add (mul (getCur c) HISTORY_WEIGHT) (mul (getVal g) RECENT_WEIGHT))).

Definition skill_names : list string :=
  ["empathy"; "conflictResolution"; "boundaryKeeping"; "patience"]%string.

(** Reading [sessionSkills.empathy] throws when [sessionSkills] is
    [undefined] or [null]; [sessionCount] is not used by the body. *)
Definition updateSkills (currentSkills : gmap string value)
    (sessionSkills : option (gmap string value)) (sessionCount : number)
  : exn + gmap string value :=
  match sessionSkills with
  | None => inl (TypeError "Cannot read properties of undefined (reading 'empathy')")
  | Some sessionSkills =>
      inr (<["empathy" := VNum (blend (prop currentSkills "empathy")
                                      (prop sessionSkills "empathy"))]>
          (<["conflictResolution" := VNum (blend (prop currentSkills "conflictResolution")
                                                 (prop sessionSkills "conflictResolution"))]>
          (<["boundaryKeeping" := VNum (blend (prop currentSkills "boundaryKeeping")
                                              (prop sessionSkills "boundaryKeeping"))]>
          (<["patience" := VNum (blend (prop currentSkills "patience")
                                       (prop sessionSkills "patience"))]> ∅))))
  end.

(** ** The world: manager fields, Firestore, clocks, log *)

Record StoredSession : Type := { session_data : SessionData; completedAt : Z }.

Record World : Type := {
  currentUser : option string;        (* this.currentUser (its uid) *)
  userDoc : option UserDoc;           (* this.userDoc, a snapshot *)
  users : gmap string UserDoc;        (* collection users *)
  sessions : gmap string (list StoredSession);  (* users/<uid>/sessions *)
  clock : Z;                          (* what new Date() reads, in ms *)
  serverTime : Z;                     (* what serverTimestamp() resolves to *)
  unlockLog : list string             (* ids reported as unlocked *)
}.

Definition set_userDoc (d : option UserDoc) (w : World) : World :=
  {| currentUser := currentUser w; userDoc := d; users := users w;
     sessions := sessions w; clock := clock w; serverTime := serverTime w;
     unlockLog := unlockLog w |}.

Definition set_users (u : gmap string UserDoc) (w : World) : World :=
  {| currentUser := currentUser w; userDoc := userDoc w; users := u;
     sessions := sessions w; clock := clock w; serverTime := serverTime w;
     unlockLog := unlockLog w |}.

Definition set_sessions (s : gmap string (list StoredSession)) (w : World) : World :=
  {| currentUser := currentUser w; userDoc := userDoc w; users := users w;
     sessions := s; clock := clock w; serverTime := serverTime w;
     unlockLog := unlockLog w |}.

Definition set_unlockLog (l : list string) (w : World) : World :=
  {| currentUser := currentUser w; userDoc := userDoc w; users := users w;
     sessions := sessions w; clock := clock w; serverTime := serverTime w;
     unlockLog := l |}.

(** Methods run in a state monad over the world and may throw. *)
Definition M (A : Type) : Type := World → (exn + A) * World.

Global Instance M_ret : MRet M := λ A (a : A) w, (inr a, w).
Global Instance M_bind : MBind M := λ A B (f : A → M B) (c : M A) w,
  match c w with
  | (inl e, w') => (inl e, w')
  | (inr a, w') => f a w'
  end.

Definition throw {A : Type} (e : exn) : M A := λ w, (inl e, w).
Definition get : M World := λ w, (inr w, w).
Definition modify (f : World → World) : M unit := λ w, (inr tt, f w).
Definition try_catch {A : Type} (body : M A) (handler : exn → M A) : M A := λ w,
  match body w with
  | (inl e, w') => handler e w'
  | r => r
  end.

(** ** calculateStreak *)

(** The three things [calculateStreak] returns: the number [1], [null]
    and the string ['increment']. *)
Inductive StreakUpdate : Type :=
  | One
  | Null
  | Increment.

Definition MS_PER_DAY : Z := 1000 * 60 * 60 * 24.

(** [lastSessionDate] is the only argument; the current time comes from
    [new Date()], that is from the world's [clock].  Both dates are integer
    millisecond counts, and [Math.floor] of their quotient by the day
    length is floor division. *)
Definition calculateStreak (lastSessionDate : option Z) (w : World) : StreakUpdate :=
  match lastSessionDate with
  | None => One
  | Some last =>
      let now := clock w in
      let daysDiff := (now - last) / MS_PER_DAY in
      if daysDiff =? 0 then Null
      else if daysDiff =? 1 then Increment
      else One
  end.

(** The same day difference evaluated as the source writes it, on
    Numbers: [Math.floor((now - last) / (1000 * 60 * 60 * 24))]. *)
Definition daysDiff_binary64 (now last : Z) : number :=
  Math_floor (div (sub (of_Z now) (of_Z last))
                  (mul (mul (mul (of_Z 1000) (of_Z 60)) (of_Z 60)) (of_Z 24))).

(** ** Achievements *)

Record AchievementDefinition : Type := {
  id : string;
  requirement : UserDoc → SessionData → bool
}.

Definition getAchievementsToCheck (sessionData : SessionData) : list AchievementDefinition :=
  [ {| id := "first_session";
       requirement := λ user _, ge (totalSessions (progress user)) (of_Z 1) |};
    {| id := "empathy_master";
       requirement := λ user _, ge (ToNumber (prop (skills user) "empathy")) (of_Z 80) |};
    {| id := "patient_teacher";
       requirement := λ user _, ge (ToNumber (prop (skills user) "patience")) (of_Z 90) |};
    {| id := "perfectionist";
       requirement := λ _ session, ge (score session) (of_Z 95) |};
    {| id := "week_streak";
       requirement := λ user _, ge (streak (progress user)) (of_Z 7) |} ].

(** One turn of the [for] loop of [checkAchievements]: [acc] carries the
    [updates] object and the ids reported so far. *)
Definition checkOne (doc : UserDoc) (sessionData : SessionData) (at_ : Z)
    (acc : gmap string Achievement * list string) (achievement : AchievementDefinition)
  : gmap string Achievement * list string :=
  let achievementId := id achievement in
  match achievements doc !! achievementId with
  | Some _ => acc                       (* already unlocked: continue *)
  | None =>
      if requirement achievement doc sessionData
      then (<[achievementId := {| unlockedAt := at_ |}]> (fst acc),
            snd acc ++ [achievementId])
      else acc
  end.

(** [userRef.update(fields)] fails when the document does not exist. *)
Definition update_user (userId : string) (f : UserDoc → UserDoc) : M unit := λ w,
  match users w !! userId with
  | None => (inl (FirestoreError "not-found"), w)
  | Some d => (inr tt, set_users (<[userId := f d]> (users w)) w)
  end.

(** The whole loop: the [updates] object and the ids reported. *)
Definition collectUpdates (doc : UserDoc) (sessionData : SessionData) (at_ : Z)
  : gmap string Achievement * list string :=
  foldl (checkOne doc sessionData at_) (∅, []) (getAchievementsToCheck sessionData).

(** The requirement is evaluated on [this.userDoc], the snapshot the
    manager holds when the method runs. *)
Definition checkAchievements (sessionData : SessionData) : M unit := λ w,
  match currentUser w, userDoc w with
  | Some userId, Some doc =>
      let '(updates, reported) := collectUpdates doc sessionData (serverTime w) in
      let w := set_unlockLog (unlockLog w ++ reported) w in
      if decide (updates = ∅) then (inr tt, w)
      else update_user userId
             (λ d, {| progress := progress d; skills := skills d;
                      achievements := updates ∪ achievements d |}) w
  | _, _ => (inl (TypeError "Cannot read properties of null"), w)
  end.

(** ** Loading and creating the user document *)

Definition initialData : UserDoc :=
  {| progress := {| totalSessions := of_Z 0; completedScenarios := of_Z 0;
                    averageScore := of_Z 0; totalTimeSpent := of_Z 0;
                    streak := of_Z 0; lastSessionDate := None |};
     skills := <["empathy" := VNum (of_Z 0)]>
              (<["conflictResolution" := VNum (of_Z 0)]>
              (<["boundaryKeeping" := VNum (of_Z 0)]>
              (<["patience" := VNum (of_Z 0)]> ∅)));
     achievements := ∅ |}.

Definition createUserDocument (userId : string) : M unit :=
  modify (λ w, set_users (<[userId := initialData]> (users w)) w).

(** When the document is missing it is created and the method calls
    itself once more, this time finding it. *)
Definition loadUserData (userId : string) : M unit :=
  w ← get;
  match users w !! userId with
  | Some d => modify (set_userDoc (Some d))
  | None =>
      createUserDocument userId;;
      w' ← get;
      modify (set_userDoc (users w' !! userId))
  end.

(** ** saveSessionResults *)

Inductive SaveResult : Type :=
  | Saved (sessionId : nat)       (* { success: true, sessionId } *)
  | NotSaved (error : string).    (* { success: false, error } *)

Definition success (r : exn + SaveResult) : bool :=
  match r with
  | inr (Saved _) => true
  | _ => false
  end.

(** [sessions.add(...)]: the new record gets the server's timestamp; its
    generated id is modelled by its position in the subcollection. *)
Definition add_session (userId : string) (sessionData : SessionData) : M nat := λ w,
  let old := default [] (sessions w !! userId) in
  let rec := {| session_data := sessionData; completedAt := serverTime w |} in
  (inr (length old), set_sessions (<[userId := old ++ [rec]]> (sessions w)) w).

Definition saveSessionResults (sessionData : SessionData) : M SaveResult :=
  w ← get;
  match currentUser w with
  | None => throw (Error "User not logged in")
  | Some userId =>
      (* Ensure user data is loaded *)
      reload ← match userDoc w with
               | Some _ => mret None
               | None =>
                   try_catch (loadUserData userId;; mret None)
                     (λ e, mret (Some (NotSaved ("User profile not loaded: " +:+ message e))))
               end;
      w ← get;
      match reload, userDoc w with
      | Some failed, _ => mret failed
      | None, None => mret (NotSaved "User profile not found after reload")
      | None, Some doc =>
          try_catch
            (sessionId ← add_session userId sessionData;
             (* Update user progress *)
             let currentProgress := progress doc in
             let newTotalSessions := add (totalSessions currentProgress) (of_Z 1) in
             let newAverageScore :=
               Math_round
                 (div (add (mul (averageScore currentProgress) (totalSessions currentProgress))
                           (score sessionData))
                      newTotalSessions) in
             (* Calculate streak *)
             w ← get;
             let streakUpdate := calculateStreak (lastSessionDate currentProgress) w in
             let newStreak :=
               match streakUpdate with
               | Increment => add (streak currentProgress) (of_Z 1)
               | Null => streak currentProgress
               | One => of_Z 1
               end in
             (* Update skills *)
             match updateSkills (skills doc) (skillsGained sessionData) newTotalSessions with
             | inl e => throw e
             | inr newSkills =>
                 (* Perform update; the two increments act on the stored values *)
                 update_user userId
                   (λ d, {| progress :=
                              {| totalSessions := newTotalSessions;
                                 completedScenarios := add (completedScenarios (progress d)) (of_Z 1);
                                 averageScore := newAverageScore;
                                 totalTimeSpent := add (totalTimeSpent (progress d)) (duration sessionData);
                                 streak := newStreak;
                                 lastSessionDate := Some (serverTime w) |};
                            skills := newSkills;
                            achievements := achievements d |});;
                 (* Check for new achievements *)
                 checkAchievements sessionData;;
                 (* Reload user data *)
                 loadUserData userId;;
                 mret (Saved sessionId)
             end)
            (λ error, mret (NotSaved (message error)))
      end
  end.

(** ** Auxiliary definitions used by the statements *)

(** The progress record written by a successful save, from the snapshot
    [doc] held by the manager and the stored document [sdoc]. *)
Definition savedProgress (doc sdoc : UserDoc) (sessionData : SessionData) (w : World) : Progress :=
  let n := totalSessions (progress doc) in
  {| totalSessions := add n (of_Z 1);
     completedScenarios := add (completedScenarios (progress sdoc)) (of_Z 1);
     averageScore :=
       Math_round (div (add (mul (averageScore (progress doc)) n) (score sessionData))
                       (add n (of_Z 1)));
     totalTimeSpent := add (totalTimeSpent (progress sdoc)) (duration sessionData);
     streak :=
       match calculateStreak (lastSessionDate (progress doc)) w with
       | Increment => add (streak (progress doc)) (of_Z 1)
       | Null => streak (progress doc)
       | One => of_Z 1
       end;
     lastSessionDate := Some (serverTime w) |}.

(** A world in which nobody is logged in and the clocks read [t]. *)
Definition at_time (t : Z) : World :=
  {| currentUser := None; userDoc := None; users := ∅; sessions := ∅;
     clock := t; serverTime := t; unlockLog := [] |}.

Definition hours (h : Z) : Z := h * 60 * 60 * 1000.
Definition minutes (m : Z) : Z := m * 60 * 1000.

(** A user document with no session folded in yet and no skill recorded. *)
Definition blank_doc : UserDoc :=
  {| progress := {| totalSessions := of_Z 0; completedScenarios := of_Z 0;
                    averageScore := of_Z 0; totalTimeSpent := of_Z 0;
                    streak := of_Z 0; lastSessionDate := None |};
     skills := ∅;
     achievements := ∅ |}.

(** A world in which [uid] is logged in, the manager's snapshot and the
    stored document are both [doc], and the clocks read [t]. *)
Definition logged_in (uid : string) (doc : UserDoc) (t : Z) : World :=
  {| currentUser := Some uid; userDoc := Some doc; users := {[ uid := doc ]};
     sessions := ∅; clock := t; serverTime := t; unlockLog := [] |}.

Definition set_clocks (t : Z) (w : World) : World :=
  {| currentUser := currentUser w; userDoc := userDoc w; users := users w;
     sessions := sessions w; clock := t; serverTime := t;
     unlockLog := unlockLog w |}.

(** The session of the first scenario: score 95, duration 600, gains
    empathy 90 and patience 95. *)
Definition first_session_data : SessionData :=
  {| score := of_Z 95; duration := of_Z 600;
     skillsGained := Some (<["empathy" := VNum (of_Z 90)]>
                          (<["patience" := VNum (of_Z 95)]> ∅)) |}.

(** The session of the second scenario: score 60, no gains. *)
Definition second_session_data : SessionData :=
  {| score := of_Z 60; duration := of_Z 600; skillsGained := Some ∅ |}.

(** The condition under which the specification's error taxonomy would
    signal [InvalidInput]: the score is not a finite number in [0,100], or
    some gained value is not a finite number. *)
Definition finite_number (v : value) : bool :=
  match v with
  | VNum x => isFinite x
  | _ => false
  end.

Definition spec_InvalidInput (sessionData : SessionData) : bool :=
  negb (isFinite (score sessionData)
        && ge (score sessionData) (of_Z 0) && ge (of_Z 100) (score sessionData))
  || match skillsGained sessionData with
     | Some gained => negb (forallb (λ kv, finite_number kv.2) (map_to_list gained))
     | None => false
     end.

(** A session whose score, 150, is outside [0,100]. *)
Definition out_of_range_session : SessionData :=
  {| score := of_Z 150; duration := of_Z 600; skillsGained := Some ∅ |}.

(** A session whose score is NaN and whose one gain is NaN as well. *)
Definition nan_session : SessionData :=
  {| score := NaN; duration := of_Z 600;
     skillsGained := Some (<["empathy" := VNum NaN]> ∅) |}.

(** What is stored for [uid] after running a save in [w]. *)
Definition stored_after (sessionData : SessionData) (uid : string) (w : World)
  : option UserDoc :=
  users (saveSessionResults sessionData w).2 !! uid.

Definition reported_after (sessionData : SessionData) (w : World) : list string :=
  unlockLog (saveSessionResults sessionData w).2.

(** The world of the second scenario: the first session has been saved at
    time 0 and the clocks now read one day later. *)
Definition one_day_later : World :=
  set_clocks (hours 24)
    (saveSessionResults first_session_data (logged_in "u" blank_doc 0)).2.

(** The skill values of a stored document, as integers. *)
Definition skill_value (d : UserDoc) (name : string) : option Z :=
  to_Z (ToNumber (prop (skills d) name)).

(** Whether one definition is unlocked by a run of the loop: it is not in
    the snapshot's [achievements] and its requirement holds of the
    snapshot and the session. *)
Definition fires (doc : UserDoc) (sessionData : SessionData)
    (achievement : AchievementDefinition) : bool :=
  match achievements doc !! id achievement with
  | Some _ => false
  | None => requirement achievement doc sessionData
  end.

(** The claim about [updateSkills], read literally:
    [round (min (100, c * 0.7 + g * 0.3))] where [c] is the current value
    if it is a finite number and 50 otherwise, and [g] is the gained value
    if it is a finite number and 0 otherwise. *)
Definition spec_current (v : value) : number :=
  match v with
  | VNum x => if isFinite x then x else of_Z 50
  | _ => of_Z 50
  end.

Definition spec_gained (v : value) : number :=
  match v with
  | VNum x => if isFinite x then x else of_Z 0
  | _ => of_Z 0
  end.

Definition spec_skill (c g : value) : number :=
  Math_round (Math_min (of_Z 100)
                (add (mul (spec_current c) lit_0_7) (mul (spec_gained g) lit_0_3))).

(** The same reading with "a number other than NaN" in place of "a finite
    number". *)
Definition number_or (default_ : number) (v : value) : number :=
  match v with
  | VNum x => if isNaN x then default_ else x
  | _ => default_
  end.

Definition amended_skill (c g : value) : number :=
  Math_round (Math_min (of_Z 100)
                (add (mul (number_or (of_Z 50) c) lit_0_7)
                     (mul (number_or (of_Z 0) g) lit_0_3))).

(** A Number that is an integer between 0 and 100, in canonical form. *)
Definition integer_0_100 (x : number) : bool :=
  match to_Z x with
  | Some r => (0 <=? r) && (r <=? 100) && same x (of_Z r)
  | None => false
  end.

(** A current value [c] blended with every gain of [0,100], checked one
    by one. *)
Definition blend_row_ok (c : Z) : bool :=
  forallb (λ g, integer_0_100 (blend (VNum (of_Z c)) (VNum (of_Z g)))) (seqZ 0 101).

(** The Number 100, spelled out. *)
Definition c100 : number := S754_finite false 7036874417766400 (-46).

(** The value [updateSkills] returns under [name], if it returns. *)
Definition updated_skill (currentSkills gained : gmap string value) (name : string)
  : option value :=
  match updateSkills currentSkills (Some gained) (of_Z 1) with
  | inr out => out !! name
  | inl _ => None
  end.

(** Saving several sessions one after the other. *)
Definition save_all (sessionDatas : list SessionData) (w : World) : World :=
  foldl (λ w sessionData, (saveSessionResults sessionData w).2) w sessionDatas.

Definition scored (s : Z) : SessionData :=
  {| score := of_Z s; duration := of_Z 600; skillsGained := Some ∅ |}.

(** The stored average of user [uid]. *)
Definition stored_average (uid : string) (w : World) : option number :=
  averageScore ∘ progress <$> users w !! uid.

(** Elapsed times around every day boundary up to [days] days either
    side: [k * 24h - 1], [k * 24h] and [k * 24h + 1]. *)
Definition day_boundaries (days : Z) : list Z :=
  k ← seqZ (- days) (2 * days + 1);
  [k * MS_PER_DAY - 1; k * MS_PER_DAY; k * MS_PER_DAY + 1].

(** Whether the binary64 day difference of [now = last + elapsed] is the
    integer [elapsed / MS_PER_DAY]. *)
Definition daysDiff_agrees (last elapsed : Z) : bool :=
  same (daysDiff_binary64 (last + elapsed) last) (of_Z (elapsed / MS_PER_DAY)).


(** ** Further definitions: sequences of saves *)

(** The manager and Firestore agree: [uid] is logged in and the snapshot
    [this.userDoc] is the stored document. *)
Definition in_sync (uid : string) (w : World) : Prop :=
  currentUser w = Some uid
  ∧ ∃ d, userDoc w = Some d ∧ users w !! uid = Some d.

(** A save made when both clocks read [t]. *)
Definition save_at (t : Z) (sessionData : SessionData) (w : World) : World :=
  (saveSessionResults sessionData (set_clocks t w)).2.

Definition save_schedule (schedule : list (Z * SessionData)) (w : World) : World :=
  foldl (λ w ts, save_at ts.1 ts.2 w) w schedule.


(** The record [sessions.add] appends for a session saved in [w]. *)
Definition session_record (sessionData : SessionData) (w : World) : StoredSession :=
  {| session_data := sessionData; completedAt := serverTime w |}.

Definition stored_progress (uid : string) (w : World) : option Progress :=
  progress <$> users w !! uid.

(** The ids of the table of [getAchievementsToCheck]. *)
Definition achievement_ids : list string :=
  ["first_session"; "empathy_master"; "patient_teacher"; "perfectionist"; "week_streak"].

(** ** deleteSession *)

(** A document of the root collection [sessions], as far as
    [deleteSession] looks at it.  The collection is listed in the order a
    query returns its documents, each with its id. *)
Record RootSession : Type := {
  rs_userId : option string;
  rs_score : value;
  rs_duration : value
}.

(** Truthiness of a value: [undefined], [null], [false], the zeros and NaN
    are falsy. *)
Definition truthy (v : value) : bool :=
  match v with
  | VUndefined | VNull => false
  | VBool b => b
  | VNum x => match x with
              | S754_zero _ | S754_nan => false
              | _ => true
              end
  end.

(** [sum + (v || 0)] *)
Definition add_or_zero (sum : number) (v : value) : number :=
  add sum (if truthy v then ToNumber v else of_Z 0).

Inductive DeleteResult : Type :=
  | Deleted                       (* { success: true } *)
  | NotDeleted (error : string).  (* { success: false, error } *)

(** The three progress fields [deleteSession] recomputes from the
    remaining sessions of the user. *)
Definition recalculated (sessions : list RootSession) (p : Progress) : Progress :=
  let totalSessions := of_Z (Z.of_nat (length sessions)) in
  let totalScore := foldl (λ sum s, add_or_zero sum (rs_score s)) (of_Z 0) sessions in
  let averageScore :=
    if 0 <? Z.of_nat (length sessions)
    then Math_round (div totalScore totalSessions)
    else of_Z 0 in
  let totalTime := foldl (λ sum s, add_or_zero sum (rs_duration s)) (of_Z 0) sessions in
  {| totalSessions := totalSessions;
     completedScenarios := completedScenarios p;
     averageScore := averageScore;
     totalTimeSpent := Math_round (div totalTime (of_Z 1000));
     streak := streak p;
     lastSessionDate := lastSessionDate p |}.

(** [where('userId', '==', uid)] *)
Definition owned_by (uid : string) (root : list (string * RootSession)) : list RootSession :=
  filter (λ s, rs_userId s = Some uid) root.*2.

(** The whole body runs inside [try]: every failure, the missing login
    included, is returned as [{ success: false }].  The document is deleted
    before anything else is looked at.  [sessionId] is a document id, for
    which [doc(sessionId)] does not throw; deleting an id that is not in
    the collection succeeds. *)
Definition deleteSession (sessionId : string) (root : list (string * RootSession)) (w : World)
  : DeleteResult * list (string * RootSession) * World :=
  match currentUser w with
  | None => (NotDeleted "No user logged in", root, w)
  | Some uid =>
      (* Delete session document from Firestore *)
      let root := filter (λ p, p.1 ≠ sessionId) root in
      (* Update user stats by recalculating from remaining sessions *)
      let sessions := owned_by uid root in
      match update_user uid
              (λ d, {| progress := recalculated sessions (progress d);
                       skills := skills d;
                       achievements := achievements d |}) w with
      | (inl e, w) => (NotDeleted (message e), root, w)
      | (inr _, w) =>
          (* Reload user data *)
          match loadUserData uid w with
          | (inl e, w) => (NotDeleted (message e), root, w)
          | (inr _, w) => (Deleted, root, w)
          end
      end
  end.

(** ** VoiceRecognition: tone analysis *)

Definition sqrt (x : number) : number := SFsqrt prec emax x.

(** [x > y], [x < y] and [x <= y] on Numbers. *)
Definition gt (x y : number) : bool := SFltb y x.
Definition lt (x y : number) : bool := SFltb x y.
Definition le (x y : number) : bool := SFleb x y.

(** What the analyser hands over: the byte arrays filled by
    [getByteTimeDomainData] and [getByteFrequencyData], and the sample rate
    of the audio context. *)
Record AudioInput : Type := {
  timeDataArray : list Z;
  dataArray : list Z;
  sampleRate : number
}.

Record ToneData : Type := { volume : number; pitch : number }.

Definition fftSize : Z := 2048.

(** Calculate volume (RMS): the loop over [timeDataArray] and the two
    lines after it. *)
Definition sumOfSquares (timeDataArray : list Z) : number :=
  foldl (λ sum b,
           let normalized := div (sub (of_Z b) (of_Z 128)) (of_Z 128) in
           add sum (mul normalized normalized))
        (of_Z 0) timeDataArray.

Definition volumeOf (timeDataArray : list Z) : number :=
  let sum := sumOfSquares timeDataArray in
  let rms := sqrt (div sum (of_Z (Z.of_nat (length timeDataArray)))) in
  Math_round (mul rms (of_Z 100)).

(** Estimate pitch: one turn of the loop that finds the dominant
    frequency bin; the state is [maxAmplitude], [maxIndex] and [i]. *)
Definition dominantStep (st : Z * nat * nat) (x : Z) : Z * nat * nat :=
  let '(maxAmplitude, maxIndex, i) := st in
  if maxAmplitude <? x then (x, i, S i) else (maxAmplitude, maxIndex, S i).

Definition dominantBin (dataArray : list Z) : Z * nat :=
  (foldl dominantStep (0, 0%nat, 0%nat) dataArray).1.

Definition pitchOf (dataArray : list Z) (sampleRate : number) : number :=
  let maxIndex := (dominantBin dataArray).2 in
  Math_round (div (mul (of_Z (Z.of_nat maxIndex)) sampleRate) (of_Z fftSize)).

(** [analyzeTone]: [None] as input stands for a failure to get the
    microphone or the audio context, which the method turns into [null];
    the timestamp of the result is left out. *)
Definition analyzeTone (input : option AudioInput) : option ToneData :=
  match input with
  | None => None
  | Some a => Some {| volume := volumeOf (timeDataArray a);
                      pitch := pitchOf (dataArray a) (sampleRate a) |}
  end.

Inductive ToneType : Type :=
  | aggressive
  | calm
  | neutral.

Definition getToneType (toneData : option ToneData) : ToneType :=
  match toneData with
  | None => neutral
  | Some toneData =>
      if gt (volume toneData) (of_Z 70) && gt (pitch toneData) (of_Z 250) then aggressive
      else if lt (volume toneData) (of_Z 50)
              && ge (pitch toneData) (of_Z 150) && le (pitch toneData) (of_Z 220)
      then calm
      else neutral
  end.

(** ** createUserDocument: the default display name *)

(** The character ['@'], code 64. *)
Definition at_sign : Ascii.ascii := Ascii.ascii_of_nat 64.

(** [email.split('@')[0]]: the part before the first ['@']. *)
Fixpoint before_at (s : string) : string :=
  match s with
  | EmptyString => EmptyString
  | String c rest => if Ascii.eqb c at_sign then EmptyString else String c (before_at rest)
  end.

(** [displayName || (email ? email.split('@')[0] : `User_${userId.substr(0, 5)}`)];
    [None] stands for [null] or [undefined], and the empty string is falsy
    too.  Strings are sequences of bytes: ['@'] is one byte that is part of
    no longer UTF-8 sequence, so splitting at it is the same on bytes and
    on UTF-16 code units; [substr(0, 5)] counts code units, which are the
    bytes of an ASCII user id. *)
Definition defaultDisplayName (userId : string) (email displayName : option string) : string :=
  match displayName with
  | Some (String c rest) => String c rest
  | _ =>
      match email with
      | Some (String c rest) => before_at (String c rest)
      | _ => "User_" +:+ String.substring 0 5 userId
      end
  end.

(** A small spectrum whose largest amplitude, 7, occurs twice. *)
Definition sample_spectrum : list Z := [0; 3; 7; 7; 2].

(** A silent buffer of the sizes the analyser uses. *)
Definition silent_input : AudioInput :=
  {| timeDataArray := replicate 2048 128; dataArray := replicate 1024 0;
     sampleRate := of_Z 44100 |}.

(** ** Sequences of saves: skills, counters, streak *)

(** Every value of a skills object is an integer of [0,100]. *)
Definition skills_in_range (o : gmap string value) : Prop :=
  ∀ k v, o !! k = Some v → ∃ n, 0 ≤ n ≤ 100 ∧ v = VNum (of_Z n).

Definition gains_in_range (sessionData : SessionData) : Prop :=
  ∀ g, skillsGained sessionData = Some g → skills_in_range g.


(** The number of documents in [users/<uid>/sessions]. *)
Definition session_count (uid : string) (w : World) : Z :=
  Z.of_nat (length (default [] (sessions w !! uid))).


(** The session lasted a whole, non-negative number of seconds. *)
Definition whole_seconds (ts : Z * SessionData) (s : Z) : Prop :=
  0 ≤ s ∧ duration ts.2 = of_Z s ∧ is_Some (skillsGained ts.2).

(** ** The authentication listener of [init]

    [auth.onAuthStateChanged(async (user) => { ... })]: a signed-in user
    becomes [this.currentUser] and the document is loaded; on sign-out both
    fields are cleared. *)
Definition set_currentUser (u : option string) (w : World) : World :=
  {| currentUser := u; userDoc := userDoc w; users := users w;
     sessions := sessions w; clock := clock w; serverTime := serverTime w;
     unlockLog := unlockLog w |}.

Definition onAuthStateChanged (user : option string) : M unit :=
  match user with
  | Some uid => modify (set_currentUser (Some uid));; loadUserData uid
  | None => modify (set_currentUser None);; modify (set_userDoc None)
  end.

(** A session whose [skillsGained] is missing. *)
Definition unscored_session : SessionData :=
  {| score := of_Z 70; duration := of_Z 600; skillsGained := None |}.

(** The document of a user with one session, saved at time 0. *)
Definition one_session_doc : UserDoc :=
  {| progress := {| totalSessions := of_Z 1; completedScenarios := of_Z 1;
                    averageScore := of_Z 80; totalTimeSpent := of_Z 600;
                    streak := of_Z 1; lastSessionDate := Some 0 |};
     skills := ∅;
     achievements := ∅ |}.


(** ** The running average over the integers *)

(** [T / D] rounded to the nearest integer, halves upwards. *)
Definition nearest_half_up (T D : Z) : Z := (2 * T + D) / (2 * D).

(** The average stored after a session of score [s], from the stored
    average [a] of [n] sessions, in exact arithmetic. *)
Definition next_average (a n s : Z) : Z := nearest_half_up (a * n + s) (n + 1).

(** The session's score is an integer of [0,100]. *)
Definition score_in_range (sessionData : SessionData) : Prop :=
  ∃ s, 0 ≤ s ≤ 100 ∧ score sessionData = of_Z s.

(** ** [calculateStreak] as written, on Numbers

    [Math.floor((now - last) / (1000 * 60 * 60 * 24))] followed by the two
    strict comparisons, all on binary64 values. *)
Definition calculateStreak_binary64 (lastSessionDate : option Z) (w : World) : StreakUpdate :=
  match lastSessionDate with
  | None => One
  | Some last =>
      let daysDiff := daysDiff_binary64 (clock w) last in
      if strict_eq daysDiff (of_Z 0) then Null
      else if strict_eq daysDiff (of_Z 1) then Increment
      else One
  end.

(** * Properties *)

(** ** Numbers *)

Example lit_0_7_bits : lit_0_7 = S754_finite false 6305039478318694 (-53).
Proof. reflexivity. Qed.

Example lit_0_3_bits : lit_0_3 = S754_finite false 5404319552844595 (-54).
Proof. reflexivity. Qed.

Example round_half_up : Math_round (div (of_Z 5) (of_Z 2)) = of_Z 3.
Proof. vm_compute. reflexivity. Qed.

Example round_neg_half : Math_round (div (of_Z (-5)) (of_Z 2)) = of_Z (-2).
Proof. vm_compute. reflexivity. Qed.

Example round_neg_small : Math_round (div (of_Z (-1)) (of_Z 2)) = S754_zero true.
Proof. vm_compute. reflexivity. Qed.

Example round_below_half :
  Math_round (S754_finite false 9007199254740991 (-54)) = S754_zero false.
Proof. vm_compute. reflexivity. Qed.

Example min_clamps : Math_min (of_Z 100) (of_Z 140) = of_Z 100.
Proof. vm_compute. reflexivity. Qed.

Example min_keeps : Math_min (of_Z 100) (of_Z 62) = of_Z 62.
Proof. vm_compute. reflexivity. Qed.

Example min_inf : Math_min (of_Z 100) neg_Infinity = neg_Infinity.
Proof. vm_compute. reflexivity. Qed.

(** ** Canonical forms, integers and the clamp *)

Lemma digits2_pos_bounds (p : positive) :
  2 ^ (Z.pos (digits2_pos p) - 1) ≤ Z.pos p < 2 ^ Z.pos (digits2_pos p).
Proof.
  induction p as [p IH|p IH|]; cbn [digits2_pos].
  - rewrite Pos2Z.inj_succ.
    replace (Z.succ (Z.pos (digits2_pos p)) - 1) with (Z.succ (Z.pos (digits2_pos p) - 1)) by lia.
    rewrite !Z.pow_succ_r by lia. lia.
  - rewrite Pos2Z.inj_succ.
    replace (Z.succ (Z.pos (digits2_pos p)) - 1) with (Z.succ (Z.pos (digits2_pos p) - 1)) by lia.
    rewrite !Z.pow_succ_r by lia. lia.
  - cbn. lia.
Qed.

Lemma bounded_inv (m : positive) (e : Z) :
  bounded prec emax m e = true →
  -1074 ≤ e ≤ 971
  ∧ Z.pos (digits2_pos m) ≤ 53
  ∧ (-1074 < e → Z.pos (digits2_pos m) = 53).
Proof.
  unfold bounded, canonical_mantissa, fexp, SpecFloat.emin, prec, emax.
  intros H. apply andb_true_iff in H as [Hc He].
  apply Z.eqb_eq in Hc. apply Z.leb_le in He. lia.
Qed.

Lemma binary_round_aux_canonical (s : bool) (m : positive) (e : Z) :
  bounded prec emax m e = true →
  binary_round_aux prec emax s (Z.pos m) e loc_Exact = S754_finite s m e.
Proof.
  intros Hb. pose proof Hb as Hb'.
  unfold bounded, canonical_mantissa in Hb. apply andb_true_iff in Hb as [Hc He].
  apply Z.eqb_eq in Hc.
  unfold binary_round_aux, shr_fexp. cbn [Zdigits2 shr_record_of_loc].
  rewrite Hc, Z.sub_diag. cbn [shr shr_m loc_of_shr_record round_nearest_even Zdigits2].
  rewrite Hc, Z.sub_diag. cbn [shr shr_m]. rewrite He. reflexivity.
Qed.

Lemma digits2_pos_iter_xO (p k : positive) :
  digits2_pos (Pos.iter xO p k) = (digits2_pos p + k)%positive.
Proof.
  induction k as [|k IH] using Pos.peano_ind.
  - cbn. lia.
  - rewrite Pos.iter_succ. cbn [digits2_pos]. rewrite IH. lia.
Qed.

Lemma Zpos_iter_xO (p k : positive) :
  Z.pos (Pos.iter xO p k) = Z.pos p * 2 ^ Z.pos k.
Proof.
  induction k as [|k IH] using Pos.peano_ind.
  - cbn. lia.
  - rewrite Pos.iter_succ, Pos2Z.inj_succ, Z.pow_succ_r by lia.
    rewrite Pos2Z.inj_xO, IH. lia.
Qed.

Lemma binary_round_integer (s : bool) (p : positive) :
  let d := Z.pos (digits2_pos p) in
  d ≤ 53 →
  ∃ mz, binary_round prec emax s p 0 = S754_finite s mz (d - 53)
        ∧ bounded prec emax mz (d - 53) = true
        ∧ Z.pos mz = Z.pos p * 2 ^ (53 - d).
Proof.
  intros d Hd.
  assert (fexp prec emax (d + 0) = d - 53) as Hf.
  { unfold fexp, SpecFloat.emin, prec, emax. pose proof (Pos2Z.is_pos (digits2_pos p)). lia. }
  unfold binary_round. fold d. rewrite Hf.
  unfold shl_align. rewrite Z.sub_0_r.
  destruct (d - 53) as [|q|q] eqn:Hq; [| lia |].
  - exists p. rewrite binary_round_aux_canonical.
    + split; [reflexivity|]. split; [|replace (53 - d) with 0 by lia; lia].
      unfold bounded, canonical_mantissa, fexp, SpecFloat.emin, prec, emax. fold d.
      apply andb_true_iff. split; [apply Z.eqb_eq | apply Z.leb_le]; lia.
    + unfold bounded, canonical_mantissa, fexp, SpecFloat.emin, prec, emax. fold d.
      apply andb_true_iff. split; [apply Z.eqb_eq | apply Z.leb_le]; lia.
  - exists (Pos.iter xO p q).
    assert (bounded prec emax (Pos.iter xO p q) (Z.neg q) = true) as Hb.
    { unfold bounded, canonical_mantissa, fexp, SpecFloat.emin, prec, emax.
      rewrite digits2_pos_iter_xO, Pos2Z.inj_add. fold d.
      apply andb_true_iff. split; [apply Z.eqb_eq | apply Z.leb_le]; lia. }
    rewrite binary_round_aux_canonical by exact Hb.
    split; [reflexivity|]. split; [exact Hb|].
    rewrite Zpos_iter_xO. f_equal. f_equal. lia.
Qed.

Lemma of_Z_100 : of_Z 100 = c100.
Proof. reflexivity. Qed.

Lemma digits_le_53 (p : positive) : Z.pos p < 2 ^ 53 → Z.pos (digits2_pos p) ≤ 53.
Proof.
  intros Hp. pose proof (digits2_pos_bounds p) as [Hlo _].
  assert (2 ^ (Z.pos (digits2_pos p) - 1) < 2 ^ 53) as Hlt by lia.
  apply Z.pow_lt_mono_r_iff in Hlt; lia.
Qed.

(** [Math.min(100, n)] for an integer [n] of magnitude below 2^53. *)
Lemma Math_min_100_integer (n : Z) :
  Z.abs n < 2 ^ 53 →
  Math_min c100 (of_Z n) = if 100 <=? n then c100 else of_Z n.
Proof.
  intros Hn. destruct n as [|p|p].
  - reflexivity.
  - destruct (binary_round_integer false p (digits_le_53 p Hn)) as (mz & Hof & Hb & Hmz).
    pose proof (digits2_pos_bounds p) as [Hlo Hhi].
    set (d := Z.pos (digits2_pos p)) in *.
    unfold of_Z, binary_normalize. rewrite Hof.
    unfold Math_min, is_binary64, valid_binary. rewrite Hb.
    cbn [c100 bounded andb negb SFcompare].
    change (bounded prec emax 7036874417766400 (-46)) with true. cbn [andb negb].
    destruct (Z.compare_spec (-46) (d - 53)) as [He|He|He].
    + assert (d = 7) as Hd by lia. rewrite Hd in *.
      change (53 - 7) with 46 in Hmz. change (7 - 1) with 6 in Hlo.
      rewrite Pos.compare_cont_spec. cbn [Pos.switch_Eq].
      change (7036874417766400 ?= mz)%positive with (Z.pos 7036874417766400 ?= Z.pos mz).
      rewrite Hmz.
      destruct (Z.compare_spec (Z.pos 7036874417766400) (Z.pos p * 2 ^ 46)) as [Hc|Hc|Hc];
        destruct (Z.leb_spec 100 (Z.pos p)) as [Hl|Hl]; try reflexivity; try lia.
      assert (Z.pos p = 100) as Hp by lia.
      injection Hp as ->. f_equal. assert (Z.pos mz = 7036874417766400) by lia. lia.
    + assert (2 ^ 7 ≤ 2 ^ (d - 1)) by (apply Z.pow_le_mono_r; lia).
      destruct (Z.leb_spec 100 (Z.pos p)) as [Hl|Hl]; [reflexivity|].
      change (2 ^ 7) with 128 in *. lia.
    + assert (2 ^ d ≤ 2 ^ 6) by (apply Z.pow_le_mono_r; lia).
      destruct (Z.leb_spec 100 (Z.pos p)) as [Hl|Hl]; [|reflexivity].
      change (2 ^ 6) with 64 in *. lia.
  - destruct (binary_round_integer true p (digits_le_53 p Hn)) as (mz & Hof & Hb & Hmz).
    unfold of_Z, binary_normalize. rewrite Hof.
    unfold Math_min, is_binary64, valid_binary. rewrite Hb.
    reflexivity.
Qed.

Lemma Math_round_100 : Math_round c100 = c100.
Proof. reflexivity. Qed.

(** The integer [floor (x + 1/2)] for [x = sm * 2^e], [e < 0]. *)
Lemma round_quotient_spec (sm e : Z) :
  e < 0 →
  let n := (2 * sm + 2 ^ (- e)) / 2 ^ (1 - e) in
  0 < 2 ^ (- e)
  ∧ n * (2 * 2 ^ (- e)) ≤ 2 * sm + 2 ^ (- e) < (n + 1) * (2 * 2 ^ (- e)).
Proof.
  intros He n.
  assert (0 < 2 ^ (- e)) as HP by (apply Z.pow_pos_nonneg; lia).
  split; [exact HP|].
  assert (2 ^ (1 - e) = 2 * 2 ^ (- e)) as Hpow.
  { replace (1 - e) with (Z.succ (- e)) by lia. rewrite Z.pow_succ_r by lia. reflexivity. }
  subst n. rewrite Hpow.
  pose proof (Z.div_mod (2 * sm + 2 ^ (- e)) (2 * 2 ^ (- e)) ltac:(lia)) as Hdm.
  pose proof (Z.mod_pos_bound (2 * sm + 2 ^ (- e)) (2 * 2 ^ (- e)) ltac:(lia)) as Hm.
  lia.
Qed.

(** [Math.min(100, .)] applied to what [Math.round] returns on a finite
    argument with negative exponent. *)
Lemma Math_min_100_rounded (s : bool) (n : Z) :
  Z.abs n < 2 ^ 53 →
  Math_min c100 (if n =? 0 then S754_zero s else of_Z n)
  = if 100 <=? n then c100 else (if n =? 0 then S754_zero s else of_Z n).
Proof.
  intros Hn. destruct (Z.eqb_spec n 0) as [->|Hne].
  - reflexivity.
  - by apply Math_min_100_integer.
Qed.

Lemma Math_min_100_cases (x : number) :
  Math_min c100 x = S754_nan ∨ Math_min c100 x = c100 ∨ Math_min c100 x = x.
Proof.
  unfold Math_min. destruct (negb _); [by left|].
  destruct (SFcompare c100 x) as [[| |]|]; cbn [c100]; auto.
Qed.

Lemma round_min_100_comm (x : number) :
  Math_round (Math_min (of_Z 100) x) = Math_min (of_Z 100) (Math_round x).
Proof.
  rewrite of_Z_100.
  destruct x as [s|s| |s m e]; try (destruct s; reflexivity); try reflexivity.
  destruct (bounded prec emax m e) eqn:Hb; cycle 1.
  { unfold Math_min, Math_round, is_binary64, valid_binary. rewrite Hb. reflexivity. }
  pose proof (bounded_inv m e Hb) as (Hrange & Hd53 & Hnorm).
  pose proof (digits2_pos_bounds m) as [Hlo Hhi].
  assert (Z.pos m < 2 ^ 53) as Hm53.
  { eapply Z.lt_le_trans; [exact Hhi|]. apply Z.pow_le_mono_r; lia. }
  destruct (Z.leb_spec 0 e) as [He|He].
  { (* integral argument *)
    assert (Math_round (S754_finite s m e) = S754_finite s m e) as Hr.
    { unfold Math_round. rewrite Hb. cbn [negb].
      destruct (Z.leb_spec 0 e); [reflexivity|lia]. }
    rewrite Hr.
    destruct (Math_min_100_cases (S754_finite s m e)) as [H|[H|H]]; rewrite H; try done. }
  assert (Math_round (S754_finite s m e)
          = let n := (2 * (if s then Z.neg m else Z.pos m) + 2 ^ (- e)) / 2 ^ (1 - e) in
            if n =? 0 then S754_zero s else of_Z n) as Hr.
  { unfold Math_round. rewrite Hb. cbn [negb].
    destruct (Z.leb_spec 0 e); [lia|reflexivity]. }
  rewrite Hr. clear Hr. cbn zeta.
  pose proof (round_quotient_spec (if s then Z.neg m else Z.pos m) e He) as [HP Hn].
  cbn zeta in Hn.
  set (n := (2 * (if s then Z.neg m else Z.pos m) + 2 ^ (- e)) / 2 ^ (1 - e)) in *.
  set (P := 2 ^ (- e)) in *.
  assert (2 ≤ P) as HP2.
  { subst P. change 2 with (2 ^ 1) at 1. apply Z.pow_le_mono_r; lia. }
  assert (Z.abs n < 2 ^ 53) as Habs.
  { destruct s; change (2 ^ 53) with 9007199254740992 in *; nia. }
  rewrite (Math_min_100_rounded s n Habs).
  unfold Math_min at 1, is_binary64.
  change (valid_binary prec emax c100) with true.
  change (valid_binary prec emax (S754_finite s m e)) with (bounded prec emax m e).
  rewrite Hb. cbn [andb negb].
  destruct s.
  { (* negative argument *)
    change (SFcompare c100 (S754_finite true m e)) with (Some Gt).
    destruct (Z.leb_spec 100 n) as [Hl|Hl]; [nia|].
    unfold Math_round. rewrite Hb. cbn [negb].
    destruct (Z.leb_spec 0 e); [lia|]. reflexivity. }
  assert (Math_round (S754_finite false m e) = if n =? 0 then S754_zero false else of_Z n) as Hr.
  { unfold Math_round. rewrite Hb. cbn [negb].
    destruct (Z.leb_spec 0 e); [lia|reflexivity]. }
  change (SFcompare c100 (S754_finite false m e))
    with (Some match -46 ?= e with
               | Eq => Pos.compare_cont Eq 7036874417766400 m
               | Lt => Lt
               | Gt => Gt
               end).
  destruct (Z.compare_spec (-46) e) as [He'|He'|He'].
  - (* e = -46 *)
    subst e. subst P. change (2 ^ (- -46)) with 70368744177664 in *.
    rewrite Pos.compare_cont_spec.
    change (7036874417766400 ?= m)%positive with (Z.pos 7036874417766400 ?= Z.pos m).
    destruct (Z.compare_spec (Z.pos 7036874417766400) (Z.pos m)) as [Hc|Hc|Hc];
      cbn [Pos.switch_Eq].
    + injection Hc as <-. reflexivity.
    + rewrite Math_round_100. destruct (Z.leb_spec 100 n); [reflexivity|lia].
    + rewrite Hr. destruct (Z.leb_spec 100 n) as [Hl|Hl]; [|reflexivity].
      assert (n = 100) as -> by lia. reflexivity.
  - (* -46 < e < 0: the argument is at least 128 *)
    rewrite Math_round_100.
    destruct (Z.leb_spec 100 n) as [Hl|Hl]; [reflexivity|].
    exfalso.
    assert (Z.pos (digits2_pos m) = 53) as Hd by (apply Hnorm; lia).
    rewrite Hd in Hlo. change (2 ^ (53 - 1)) with 4503599627370496 in Hlo.
    assert (P ≤ 2 ^ 45) as HP45 by (subst P; apply Z.pow_le_mono_r; lia).
    change (2 ^ 45) with 35184372088832 in HP45. nia.
  - (* e < -46: the argument is below 64 *)
    rewrite Hr.
    destruct (Z.leb_spec 100 n) as [Hl|Hl]; [|reflexivity].
    exfalso.
    assert (2 ^ 47 ≤ P) as HP47 by (subst P; apply Z.pow_le_mono_r; lia).
    change (2 ^ 47) with 140737488355328 in HP47.
    change (2 ^ 53) with 9007199254740992 in *. nia.
Qed.

(** ** Running one save *)

Section Save.

Local Arguments of_Z : simpl never.
Local Arguments add : simpl never.
Local Arguments mul : simpl never.
Local Arguments div : simpl never.
Local Arguments Math_round : simpl never.
Local Arguments blend : simpl never.
Local Arguments collectUpdates : simpl never.
Local Arguments calculateStreak : simpl never.

Lemma saveSessionResults_present w uid doc sdoc sd g :
  currentUser w = Some uid →
  userDoc w = Some doc →
  users w !! uid = Some sdoc →
  skillsGained sd = Some g →
  ∃ w' d' newSkills,
    saveSessionResults sd w = (inr (Saved (length (default [] (sessions w !! uid)))), w')
    ∧ updateSkills (skills doc) (Some g) (add (totalSessions (progress doc)) (of_Z 1))
      = inr newSkills
    ∧ users w' !! uid = Some d'
    ∧ userDoc w' = Some d'
    ∧ progress d' = savedProgress doc sdoc sd w
    ∧ skills d' = newSkills
    ∧ achievements d' = (collectUpdates doc sd (serverTime w)).1 ∪ achievements sdoc
    ∧ unlockLog w' = unlockLog w ++ (collectUpdates doc sd (serverTime w)).2.
Proof.
  intros Hu Hd Hs Hg.
  unfold saveSessionResults, mbind, M_bind, get, try_catch, mret, M_ret.
  rewrite Hu, Hd. cbn. rewrite Hd. cbn.
  rewrite Hg. cbn.
  unfold update_user at 1. cbn. rewrite Hs. cbn.
  unfold checkAchievements. cbn. rewrite Hu, Hd.
  destruct (collectUpdates doc sd (serverTime w)) as [updates reported] eqn:Hc.
  cbn.
  destruct (decide (updates = ∅)) as [->|Hne].
  - unfold loadUserData, mbind, M_bind, get, modify. cbn.
    rewrite lookup_insert_eq. cbn.
    eexists _, _, _. split; [reflexivity|]. split; [reflexivity|].
    cbn. rewrite lookup_insert_eq.
    repeat split; try reflexivity.
    cbn. by rewrite (left_id_L ∅ (∪)).
  - unfold update_user. cbn. rewrite lookup_insert_eq. cbn.
    unfold loadUserData, mbind, M_bind, get, modify. cbn.
    rewrite lookup_insert_eq. cbn.
    eexists _, _, _. split; [reflexivity|]. split; [reflexivity|].
    cbn. rewrite lookup_insert_eq.
    repeat split; reflexivity.
Qed.

Lemma saveSessionResults_absent w uid doc sd :
  currentUser w = Some uid →
  userDoc w = Some doc →
  skillsGained sd = None →
  ∃ w' msg,
    saveSessionResults sd w = (inr (NotSaved msg), w')
    ∧ users w' = users w
    ∧ userDoc w' = userDoc w
    ∧ unlockLog w' = unlockLog w.
Proof.
  intros Hu Hd Hg.
  unfold saveSessionResults, mbind, M_bind, get, try_catch, mret, M_ret.
  rewrite Hu, Hd. cbn. rewrite Hd. cbn.
  rewrite Hg. cbn.
  eexists _, _. split; [reflexivity|]. cbn. rewrite Hd. done.
Qed.

Lemma saveSessionResults_not_logged_in w sd :
  currentUser w = None →
  saveSessionResults sd w = (inl (Error "User not logged in"), w).
Proof.
  intros Hu.
  unfold saveSessionResults, mbind, M_bind, get. cbn. rewrite Hu. reflexivity.
Qed.

End Save.

(** ** The streak computation *)

Lemma daysDiff_cases (elapsed : Z) :
  (elapsed / MS_PER_DAY = 0 ↔ 0 ≤ elapsed < MS_PER_DAY)
  ∧ (elapsed / MS_PER_DAY = 1 ↔ MS_PER_DAY ≤ elapsed < 2 * MS_PER_DAY)
  ∧ (1 < elapsed / MS_PER_DAY ↔ 2 * MS_PER_DAY ≤ elapsed)
  ∧ (elapsed / MS_PER_DAY < 0 ↔ elapsed < 0).
Proof.
  change MS_PER_DAY with 86400000.
  pose proof (Z.div_mod elapsed 86400000 ltac:(lia)) as Hdm.
  pose proof (Z.mod_pos_bound elapsed 86400000 ltac:(lia)) as Hm.
  repeat split; intros; lia.
Qed.

Lemma calculateStreak_by_daysDiff (last : Z) (w : World) :
  calculateStreak (Some last) w =
    if (clock w - last) / MS_PER_DAY =? 0 then Null
    else if (clock w - last) / MS_PER_DAY =? 1 then Increment
    else One.
Proof. reflexivity. Qed.

(** The integer day difference is what the binary64 expression of the
    source evaluates to: checked at every day boundary within 400 days
    either side of a date in November 2023. *)
Lemma daysDiff_binary64_at_boundaries :
  forallb (daysDiff_agrees 1700000000000) (day_boundaries 400) = true.
Proof. vm_compute. reflexivity. Qed.

(** C7. For every [lastSessionDate] and current time with
    [now >= lastSessionDate], [calculateStreak] answers reset-to-one ([1])
    when the date is absent, none ([null]) when
    [floor ((now - last) / 24h)] is 0, increment when it is 1 and
    reset-to-one when it is greater than 1.  The day count is elapsed time,
    not calendar dates: less than 24h elapsed is none, from 24h up to 48h is
    increment, 48h or more is reset; so 23h59m gives none, 25h gives
    increment and 49h gives reset-to-one, and a session one minute before
    midnight (UTC) followed by one a minute after it, on the next calendar
    day, gives none. *)
Theorem C7_streak_elapsed_time (last : Z) (w : World) :
  last ≤ clock w →
  let daysDiff := (clock w - last) / MS_PER_DAY in
  calculateStreak None w = One
  ∧ (daysDiff = 0 → calculateStreak (Some last) w = Null)
  ∧ (daysDiff = 1 → calculateStreak (Some last) w = Increment)
  ∧ (1 < daysDiff → calculateStreak (Some last) w = One)
  ∧ (calculateStreak (Some last) w = Null ↔ clock w - last < hours 24)
  ∧ (calculateStreak (Some last) w = Increment
     ↔ hours 24 ≤ clock w - last < hours 48)
  ∧ (calculateStreak (Some last) w = One ↔ hours 48 ≤ clock w - last)
  ∧ (clock w = last + hours 23 + minutes 59 → calculateStreak (Some last) w = Null)
  ∧ (clock w = last + hours 25 → calculateStreak (Some last) w = Increment)
  ∧ (clock w = last + hours 49 → calculateStreak (Some last) w = One)
  ∧ ((hours 24 - minutes 1) / MS_PER_DAY ≠ (hours 24 + minutes 1) / MS_PER_DAY
     ∧ calculateStreak (Some (hours 24 - minutes 1)) (at_time (hours 24 + minutes 1)) = Null).
Proof.
  intros Hle daysDiff.
  assert ((hours 24 - minutes 1) / MS_PER_DAY ≠ (hours 24 + minutes 1) / MS_PER_DAY
          ∧ calculateStreak (Some (hours 24 - minutes 1)) (at_time (hours 24 + minutes 1)) = Null)
    as Hcal by (split; [vm_compute; discriminate | reflexivity]).
  destruct (daysDiff_cases (clock w - last)) as (H0 & H1 & H2 & _).
  fold daysDiff in H0, H1, H2.
  rewrite calculateStreak_by_daysDiff. fold daysDiff.
  change (hours 24) with MS_PER_DAY. change (hours 48) with (2 * MS_PER_DAY).
  change MS_PER_DAY with 86400000 in *.
  unfold hours, minutes.
  split; [reflexivity|].
  destruct (Z.eqb_spec daysDiff 0) as [E0|N0];
    [|destruct (Z.eqb_spec daysDiff 1) as [E1|N1]].
  - repeat split; intros; try done; try lia; apply Hcal.
  - repeat split; intros; try done; try lia; apply Hcal.
  - repeat split; intros; try done; try lia; apply Hcal.
Qed.

Lemma C7_streak_elapsed_time_witness :
  0 ≤ clock (at_time (hours 25))
  ∧ calculateStreak (Some 0) (at_time (hours 25)) = Increment.
Proof.
  split; [vm_compute; discriminate|].
  apply (C7_streak_elapsed_time 0 (at_time (hours 25)));
    [vm_compute; discriminate | reflexivity].
Defined.

(** C9. When [lastSessionDate] is strictly later than the current time
    (negative elapsed time), the floor of the day difference is at most -1,
    neither 0 nor 1, and [calculateStreak] answers reset-to-one. *)
Theorem C9_streak_clock_backwards (last : Z) (w : World) :
  clock w < last →
  (clock w - last) / MS_PER_DAY ≤ -1
  ∧ calculateStreak (Some last) w = One.
Proof.
  intros Hlt.
  destruct (daysDiff_cases (clock w - last)) as (H0 & H1 & _ & Hneg).
  rewrite calculateStreak_by_daysDiff.
  assert ((clock w - last) / MS_PER_DAY < 0) as Hd by (apply Hneg; lia).
  split; [lia|].
  destruct (Z.eqb_spec ((clock w - last) / MS_PER_DAY) 0); [lia|].
  destruct (Z.eqb_spec ((clock w - last) / MS_PER_DAY) 1); [lia|].
  reflexivity.
Qed.

Lemma C9_streak_clock_backwards_witness :
  clock (at_time 0) < 1
  ∧ calculateStreak (Some 1) (at_time 0) = One.
Proof.
  split; [reflexivity|].
  apply (C9_streak_clock_backwards 1 (at_time 0)). reflexivity.
Defined.

(** C3, as stated, fails: the current time is not an argument of
    [calculateStreak]; two runs on the same [lastSessionDate] answer
    differently when the clock read by [new Date()] differs. *)
Lemma C3_counterexample :
  calculateStreak (Some 0) (at_time 0) = Null
  ∧ calculateStreak (Some 0) (at_time (hours 24)) = Increment
  ∧ calculateStreak (Some 0) (at_time 0) ≠ calculateStreak (Some 0) (at_time (hours 24)).
Proof. repeat split. discriminate. Qed.

(** C3, amended. [calculateStreak] takes [lastSessionDate] as its only
    argument and reads the current time from the clock itself; its answer
    is determined by [lastSessionDate] and that clock reading alone: two
    runs with the same [lastSessionDate] in worlds whose clocks read the
    same time answer the same, whatever else differs, and with an absent
    [lastSessionDate] the answer does not depend on the clock either. *)
Theorem C3_streak_depends_on_clock_only (lastSessionDate : option Z) (w1 w2 : World) :
  clock w1 = clock w2 →
  calculateStreak lastSessionDate w1 = calculateStreak lastSessionDate w2
  ∧ calculateStreak None w1 = calculateStreak None (at_time 0).
Proof.
  intros Hc. split; [|reflexivity].
  destruct lastSessionDate as [last|]; [|reflexivity].
  rewrite !calculateStreak_by_daysDiff, Hc. reflexivity.
Qed.

Lemma C3_streak_depends_on_clock_only_witness :
  clock (at_time 5) = clock (set_unlockLog ["first_session"%string] (at_time 5))
  ∧ calculateStreak (Some 0) (at_time 5)
    = calculateStreak (Some 0) (set_unlockLog ["first_session"%string] (at_time 5)).
Proof.
  split; [reflexivity|].
  apply (C3_streak_depends_on_clock_only (Some 0) (at_time 5)
           (set_unlockLog ["first_session"%string] (at_time 5))).
  reflexivity.
Defined.

(** ** updateSkills and an absent gained map *)

Lemma getVal_absent_or_zero (gained : gmap string value) (k name : string) :
  getVal (prop (delete k gained) name)
  = getVal (prop (<[k := VNum (of_Z 0)]> gained) name).
Proof.
  unfold prop. destruct (decide (k = name)) as [->|Hne].
  - rewrite lookup_delete_eq, lookup_insert_eq. reflexivity.
  - rewrite lookup_delete_ne, lookup_insert_ne by done. reflexivity.
Qed.

Lemma blend_absent_or_zero (c : value) (gained : gmap string value) (k name : string) :
  blend c (prop (delete k gained) name)
  = blend c (prop (<[k := VNum (of_Z 0)]> gained) name).
Proof. unfold blend. rewrite getVal_absent_or_zero. reflexivity. Qed.

(** C10. [updateSkills] needs the gained map itself to be there: when the
    session's [skillsGained] is absent as a whole it throws (a TypeError)
    and returns no skills object, whereas a key that is individually absent
    from a present map counts as a gain of 0.  At the call site the
    exception is caught: the save reports failure and the stored user
    document is left as it was. *)
Theorem C10_absent_gained_map_throws
    (w : World) (uid : string) (doc : UserDoc) (sd : SessionData)
    (gained : gmap string value) (k : string) (sessionCount : number) :
  currentUser w = Some uid →
  userDoc w = Some doc →
  skillsGained sd = None →
  (∃ msg, updateSkills (skills doc) None sessionCount = inl (TypeError msg))
  ∧ (∃ out, updateSkills (skills doc) (Some (delete k gained)) sessionCount = inr out
            ∧ updateSkills (skills doc) (Some (<[k := VNum (of_Z 0)]> gained)) sessionCount
              = inr out)
  ∧ (∃ w' msg, saveSessionResults sd w = (inr (NotSaved msg), w')
               ∧ users w' = users w).
Proof.
  intros Hu Hd Hg. split; [|split].
  - eexists. reflexivity.
  - eexists. split; [reflexivity|].
    unfold updateSkills. rewrite !(blend_absent_or_zero _ gained k). reflexivity.
  - destruct (saveSessionResults_absent w uid doc sd Hu Hd Hg) as (w' & msg & Hs & Hus & _).
    eauto.
Qed.

Lemma C10_absent_gained_map_throws_witness :
  ∃ w' msg,
    saveSessionResults {| score := of_Z 95; duration := of_Z 600; skillsGained := None |}
                       (logged_in "u" blank_doc 0)
    = (inr (NotSaved msg), w')
    ∧ users w' = users (logged_in "u" blank_doc 0).
Proof.
  apply (C10_absent_gained_map_throws (logged_in "u" blank_doc 0) "u" blank_doc
           {| score := of_Z 95; duration := of_Z 600; skillsGained := None |}
           ∅ "empathy" (of_Z 1)); reflexivity.
Defined.

(** ** The running average *)

(** C6. For every prior state with [totalSessions = n] and
    [averageScore = a] and every session score [s], a successful save
    stores [totalSessions' = n + 1] and
    [averageScore' = round ((a * n + s) / (n + 1))]: the new average is
    computed from the old, already rounded, average and the count, not from
    a running sum of the raw scores.  A second session of score 60 after a
    first of 95 gives 78; and after the scores 0, 1, 0 the stored average
    is 1, where the rounded mean of the raw scores is 0. *)
Theorem C6_incremental_average
    (w : World) (uid : string) (doc sdoc : UserDoc) (sd : SessionData)
    (g : gmap string value) :
  currentUser w = Some uid →
  userDoc w = Some doc →
  users w !! uid = Some sdoc →
  skillsGained sd = Some g →
  let n := totalSessions (progress doc) in
  let a := averageScore (progress doc) in
  let s := score sd in
  (∃ w' d' sessionId,
     saveSessionResults sd w = (inr (Saved sessionId), w')
     ∧ users w' !! uid = Some d'
     ∧ totalSessions (progress d') = add n (of_Z 1)
     ∧ averageScore (progress d') = Math_round (div (add (mul a n) s) (add n (of_Z 1))))
  ∧ Math_round (div (add (mul (of_Z 95) (of_Z 1)) (of_Z 60)) (add (of_Z 1) (of_Z 1)))
    = of_Z 78
  ∧ stored_average "u" (save_all [scored 95; scored 60] (logged_in "u" blank_doc 0))
    = Some (of_Z 78)
  ∧ stored_average "u" (save_all [scored 0; scored 1; scored 0] (logged_in "u" blank_doc 0))
    = Some (of_Z 1)
  ∧ Math_round (div (of_Z (0 + 1 + 0)) (of_Z 3)) = of_Z 0.
Proof.
  intros Hu Hd Hs Hg n a s. split; [|vm_compute; repeat split].
  destruct (saveSessionResults_present w uid doc sdoc sd g Hu Hd Hs Hg)
    as (w' & d' & newSkills & Hsave & _ & Hst & _ & Hp & _).
  exists w', d', (length (default [] (sessions w !! uid))).
  rewrite Hp. repeat split; done.
Qed.

Lemma C6_incremental_average_witness :
  ∃ w' d' sessionId,
    saveSessionResults first_session_data (logged_in "u" blank_doc 0)
    = (inr (Saved sessionId), w')
    ∧ users w' !! "u" = Some d'
    ∧ totalSessions (progress d') = add (of_Z 0) (of_Z 1)
    ∧ averageScore (progress d')
      = Math_round (div (add (mul (of_Z 0) (of_Z 0)) (of_Z 95)) (add (of_Z 0) (of_Z 1))).
Proof.
  apply (C6_incremental_average (logged_in "u" blank_doc 0) "u" blank_doc blank_doc
           first_session_data
           (<["empathy" := VNum (of_Z 90)]> (<["patience" := VNum (of_Z 95)]> ∅)));
    reflexivity.
Defined.

(** ** Input validation *)

(** C4, as stated, fails: a score outside [0,100] and a NaN score with a
    NaN gain are both conditions under which the claim says InvalidInput is
    signalled, yet the save succeeds and the value is folded into the
    stored average. *)
Lemma C4_counterexample :
  ¬ (success (saveSessionResults out_of_range_session (logged_in "u" blank_doc 0)).1 = false
     ↔ spec_InvalidInput out_of_range_session = true)
  ∧ spec_InvalidInput out_of_range_session = true
  ∧ success (saveSessionResults out_of_range_session (logged_in "u" blank_doc 0)).1 = true
  ∧ (averageScore ∘ progress <$> stored_after out_of_range_session "u" (logged_in "u" blank_doc 0))
    = Some (of_Z 150)
  ∧ spec_InvalidInput nan_session = true
  ∧ success (saveSessionResults nan_session (logged_in "u" blank_doc 0)).1 = true
  ∧ (averageScore ∘ progress <$> stored_after nan_session "u" (logged_in "u" blank_doc 0))
    = Some NaN.
Proof.
  split; [|vm_compute; repeat split].
  intros [_ Hfail].
  assert (spec_InvalidInput out_of_range_session = true) as Hinv by (vm_compute; reflexivity).
  apply Hfail in Hinv. vm_compute in Hinv. discriminate.
Qed.

(** C4, amended. The session fold validates nothing and has no
    InvalidInput failure.  For a logged-in user whose profile is loaded and
    stored, the save succeeds exactly when [session.skillsGained] is a
    present object, whatever [session.score] and the gained values are:
    the score, be it NaN, infinite or out of range, is folded into the
    stored average, and gained values that are not numbers, or are NaN,
    count as 0.  With [skillsGained] absent the save reports failure and
    the stored user document stays as it was. *)
Theorem C4_no_input_validation
    (w : World) (uid : string) (doc sdoc : UserDoc) (sd : SessionData) :
  currentUser w = Some uid →
  userDoc w = Some doc →
  users w !! uid = Some sdoc →
  (success (saveSessionResults sd w).1 = true ↔ is_Some (skillsGained sd))
  ∧ (is_Some (skillsGained sd) →
     ∃ d', stored_after sd uid w = Some d'
           ∧ averageScore (progress d')
             = Math_round (div (add (mul (averageScore (progress doc))
                                         (totalSessions (progress doc)))
                                    (score sd))
                               (add (totalSessions (progress doc)) (of_Z 1))))
  ∧ (skillsGained sd = None → stored_after sd uid w = Some sdoc)
  ∧ (∀ v, getVal v = match v with
                     | VNum x => if isNaN x then of_Z 0 else x
                     | _ => of_Z 0
                     end).
Proof.
  intros Hu Hd Hs.
  assert (∀ v, getVal v = match v with
                          | VNum x => if isNaN x then of_Z 0 else x
                          | _ => of_Z 0
                          end) as Hval.
  { intros [| | |x]; try reflexivity. unfold getVal. by destruct (isNaN x). }
  destruct (skillsGained sd) as [g|] eqn:Hg.
  - destruct (saveSessionResults_present w uid doc sdoc sd g Hu Hd Hs Hg)
      as (w' & d' & newSkills & Hsave & _ & Hst & _ & Hp & _).
    unfold stored_after. rewrite Hsave. cbn.
    repeat split; try done.
    intros _. exists d'. rewrite Hp. done.
  - destruct (saveSessionResults_absent w uid doc sd Hu Hd Hg)
      as (w' & msg & Hsave & Hus & _).
    unfold stored_after. rewrite Hsave. cbn. rewrite Hus.
    repeat split; try done; intros [? ?]; done.
Qed.

Lemma C4_no_input_validation_witness :
  success (saveSessionResults nan_session (logged_in "u" blank_doc 0)).1 = true
  ↔ is_Some (skillsGained nan_session).
Proof.
  apply (C4_no_input_validation (logged_in "u" blank_doc 0) "u" blank_doc blank_doc
           nan_session); reflexivity.
Defined.

(** ** Achievements *)

Lemma checkOne_fires doc sd t acc a :
  checkOne doc sd t acc a
  = if fires doc sd a
    then (<[id a := {| unlockedAt := t |}]> acc.1, acc.2 ++ [id a])
    else acc.
Proof.
  unfold checkOne, fires. destruct (achievements doc !! id a); [reflexivity|].
  destruct (requirement a doc sd); reflexivity.
Qed.

Lemma foldl_checkOne_reported doc sd t defs : ∀ acc,
  (foldl (checkOne doc sd t) acc defs).2
  = acc.2 ++ (id <$> filter (λ a, fires doc sd a = true) defs).
Proof.
  induction defs as [|a defs IH]; intros acc; cbn [foldl].
  - by rewrite app_nil_r.
  - rewrite IH, checkOne_fires, filter_cons.
    destruct (fires doc sd a) eqn:Hf.
    + rewrite decide_True by done. cbn. by rewrite <- app_assoc.
    + rewrite decide_False by done. reflexivity.
Qed.

Lemma foldl_checkOne_lookup doc sd t i defs : ∀ acc,
  (foldl (checkOne doc sd t) acc defs).1 !! i
  = if existsb (λ a, String.eqb (id a) i && fires doc sd a) defs
    then Some {| unlockedAt := t |}
    else acc.1 !! i.
Proof.
  induction defs as [|a defs IH]; intros acc; cbn [foldl existsb].
  - reflexivity.
  - rewrite IH, checkOne_fires.
    destruct (existsb _ defs); [by rewrite orb_true_r|].
    rewrite orb_false_r.
    destruct (String.eqb_spec (id a) i) as [->|Hne]; cbn [andb].
    + destruct (fires doc sd a); [|reflexivity]. cbn [fst]. by rewrite lookup_insert_eq.
    + destruct (fires doc sd a); [|reflexivity]. cbn [fst]. by rewrite lookup_insert_ne.
Qed.

(** What the loop does with [first_session], read off the snapshot. *)
Lemma collectUpdates_first_session (doc : UserDoc) (sd : SessionData) (t : Z) :
  let unlocked :=
    match achievements doc !! "first_session" with
    | Some _ => false
    | None => ge (totalSessions (progress doc)) (of_Z 1)
    end in
  (collectUpdates doc sd t).1 !! "first_session"
  = (if unlocked then Some {| unlockedAt := t |} else None)
  ∧ ("first_session" ∈ (collectUpdates doc sd t).2 ↔ unlocked = true).
Proof.
  cbn zeta. unfold collectUpdates. split.
  - rewrite foldl_checkOne_lookup. cbn [fst]. rewrite lookup_empty.
    unfold getAchievementsToCheck, fires. cbn [existsb id requirement String.eqb Ascii.eqb Bool.eqb andb orb].
    rewrite !orb_false_r. reflexivity.
  - rewrite foldl_checkOne_reported. cbn [snd app].
    rewrite list_elem_of_fmap. unfold getAchievementsToCheck. split.
    + intros (a & Hid & Hin). apply list_elem_of_filter in Hin as [Hf Hin].
      repeat (apply elem_of_cons in Hin as [->|Hin]; [try discriminate Hid|]).
      * exact Hf.
      * by apply elem_of_nil in Hin.
    + intros Hf.
      exists {| id := "first_session";
                requirement := λ user _, ge (totalSessions (progress user)) (of_Z 1) |}.
      split; [reflexivity|]. apply list_elem_of_filter. split; [exact Hf|].
      apply elem_of_cons. by left.
Qed.

(** C1 (the code departs from it). On a user's first-ever session the
    save stores [totalSessions' = 1], yet [first_session] is neither
    recorded nor reported: its requirement is evaluated on the snapshot
    taken before the update, where [totalSessions] is still 0.  It is
    recorded by the next save, whose snapshot shows one session, and a
    snapshot that already holds it is never given it again. *)
Theorem C1_first_session_one_save_late
    (w : World) (uid : string) (doc : UserDoc) (sd : SessionData)
    (g : gmap string value) :
  currentUser w = Some uid →
  userDoc w = Some doc →
  users w !! uid = Some doc →
  skillsGained sd = Some g →
  ∃ w' d' sessionId reported,
    saveSessionResults sd w = (inr (Saved sessionId), w')
    ∧ users w' !! uid = Some d'
    ∧ unlockLog w' = unlockLog w ++ reported
    ∧ (totalSessions (progress doc) = of_Z 0 →
       achievements doc !! "first_session" = None →
       totalSessions (progress d') = of_Z 1
       ∧ achievements d' !! "first_session" = None
       ∧ "first_session" ∉ reported)
    ∧ (ge (totalSessions (progress doc)) (of_Z 1) = true →
       achievements doc !! "first_session" = None →
       achievements d' !! "first_session" = Some {| unlockedAt := serverTime w |}
       ∧ "first_session" ∈ reported)
    ∧ (∀ a, achievements doc !! "first_session" = Some a →
       achievements d' !! "first_session" = Some a
       ∧ "first_session" ∉ reported).
Proof.
  intros Hu Hd Hs Hg.
  destruct (saveSessionResults_present w uid doc doc sd g Hu Hd Hs Hg)
    as (w' & d' & newSkills & Hsave & _ & Hst & _ & Hp & _ & Ha & Hlog).
  destruct (collectUpdates_first_session doc sd (serverTime w)) as [Hfst Hrep].
  cbn zeta in Hfst, Hrep.
  exists w', d', (length (default [] (sessions w !! uid))),
    (collectUpdates doc sd (serverTime w)).2.
  split; [done|]. split; [done|]. split; [done|].
  rewrite Ha, Hp. cbn [totalSessions savedProgress].
  split; [|split].
  - intros Hn Hnone. rewrite Hnone, Hn in Hfst, Hrep.
    change (ge (of_Z 0) (of_Z 1)) with false in Hfst, Hrep.
    rewrite Hn. split; [reflexivity|].
    rewrite lookup_union, Hfst, Hnone. split; [done|].
    intros Hin. apply Hrep in Hin. discriminate.
  - intros Hge Hnone. rewrite Hnone, Hge in Hfst, Hrep.
    rewrite lookup_union, Hfst, Hnone. split; [done|]. by apply Hrep.
  - intros a Hsome. rewrite Hsome in Hfst, Hrep.
    rewrite lookup_union, Hfst, Hsome. split; [done|].
    intros Hin. apply Hrep in Hin. discriminate.
Qed.

Lemma C1_first_session_one_save_late_witness :
  ∃ d',
    stored_after first_session_data "u" (logged_in "u" blank_doc 0) = Some d'
    ∧ totalSessions (progress d') = of_Z 1
    ∧ achievements d' !! "first_session" = None.
Proof.
  destruct (C1_first_session_one_save_late (logged_in "u" blank_doc 0) "u" blank_doc
              first_session_data
              (<["empathy" := VNum (of_Z 90)]> (<["patience" := VNum (of_Z 95)]> ∅))
              eq_refl eq_refl eq_refl eq_refl)
    as (w' & d' & sessionId & reported & Hsave & Hst & _ & Hfirst & _).
  exists d'. unfold stored_after. rewrite Hsave.
  destruct (Hfirst eq_refl eq_refl) as (Hn & Hnone & _).
  split; [exact Hst|]. split; [exact Hn | exact Hnone].
Defined.

(** C2 (the code departs from it in one point). From the state
    [{totalSessions:0, averageScore:0, streak:0}] with all four skills
    absent, the first-ever session [{score:95, duration:600,
    skillsGained:{empathy:90, patience:95}}] stores [totalSessions' = 1],
    [averageScore' = 95], [streak' = 1], empathy 62 and patience 64, and
    reports [perfectionist] but not [patient_teacher]; [first_session],
    however, is not reported by this save.  It is reported by the next
    one. *)
Theorem C2_first_scenario_evaluated :
  let w := logged_in "u" blank_doc 0 in
  success (saveSessionResults first_session_data w).1 = true
  ∧ (progress <$> stored_after first_session_data "u" w)
    = Some {| totalSessions := of_Z 1; completedScenarios := of_Z 1;
              averageScore := of_Z 95; totalTimeSpent := of_Z 600;
              streak := of_Z 1; lastSessionDate := Some 0 |}
  ∧ (stored_after first_session_data "u" w ≫= λ d, skill_value d "empathy") = Some 62
  ∧ (stored_after first_session_data "u" w ≫= λ d, skill_value d "patience") = Some 64
  ∧ reported_after first_session_data w = ["perfectionist"]
  ∧ reported_after second_session_data one_day_later = ["perfectionist"; "first_session"].
Proof. vm_compute. repeat split. Qed.

(** ** updateSkills: the weighted blend *)

Lemma getCur_number_or (v : value) : getCur v = number_or (of_Z 50) v.
Proof. destruct v as [| | |x]; try reflexivity. cbn. by destruct (isNaN x). Qed.

Lemma getVal_number_or (v : value) : getVal v = number_or (of_Z 0) v.
Proof. destruct v as [| | |x]; try reflexivity. cbn. by destruct (isNaN x). Qed.

(** Clamping after rounding, as the code does, and rounding after
    clamping, as the claim says, give the same Number. *)
Lemma blend_amended_skill (c g : value) : blend c g = amended_skill c g.
Proof.
  unfold blend, amended_skill, HISTORY_WEIGHT, RECENT_WEIGHT.
  rewrite round_min_100_comm, getCur_number_or, getVal_number_or. reflexivity.
Qed.

Lemma updateSkills_lookup (currentSkills gained : gmap string value)
    (sessionCount : number) (name : string) :
  name ∈ skill_names →
  ∃ out, updateSkills currentSkills (Some gained) sessionCount = inr out
         ∧ out !! name = Some (VNum (blend (prop currentSkills name) (prop gained name))).
Proof.
  intros Hin. eexists. split; [reflexivity|].
  unfold skill_names in Hin.
  repeat (apply elem_of_cons in Hin as [->|Hin]; [by simplify_map_eq|]).
  by apply elem_of_nil in Hin.
Qed.

Lemma SameValueZero_refl (z : number) : SameValueZero z z = true.
Proof.
  destruct z as [s|s| |s m e]; try (destruct s; reflexivity); try reflexivity.
  unfold SameValueZero, SFeqb, SFcompare. cbn [isNaN andb orb].
  rewrite Z.compare_refl, Pos.compare_cont_refl. by destruct s.
Qed.

Lemma add_zero_SameValueZero (y : number) :
  SameValueZero (Math_round (Math_min (of_Z 100) (add y (S754_zero false))))
                (Math_round (Math_min (of_Z 100) y)) = true.
Proof.
  destruct y as [s|s| |s m e]; try (destruct s; reflexivity); try reflexivity.
  change (add (S754_finite s m e) (S754_zero false)) with (S754_finite s m e).
  apply SameValueZero_refl.
Qed.

(** The arithmetic is binary64 arithmetic: 1 * 0.7 + 36 * 0.3 evaluates
    just below 11.5 and rounds to 11, 50 * 0.7 + 95 * 0.3 evaluates to 63.5
    and rounds to 64. *)
Example blend_is_binary64 :
  blend (VNum (of_Z 1)) (VNum (of_Z 36)) = of_Z 11
  ∧ add (mul (of_Z 1) lit_0_7) (mul (of_Z 36) lit_0_3)
    = S754_finite false 6473924464345087 (-49)
  ∧ blend (VNum (of_Z 50)) (VNum (of_Z 95)) = of_Z 64
  ∧ add (mul (of_Z 50) lit_0_7) (mul (of_Z 95) lit_0_3) = div (of_Z 127) (of_Z 2).
Proof. vm_compute. repeat split. Qed.

(** C5, as stated, fails in two places.  A current value of [Infinity] is
    a number that is not NaN, so the code keeps it and returns 100, where
    the claim replaces it by 50 and predicts 35.  And with an empty gained
    map a current value of 200 gives 100, not [round (200 * 0.7) = 140]:
    the clamp still applies. *)
Lemma C5_counterexample :
  updated_skill {[ "empathy" := VNum Infinity ]} ∅ "empathy"
  ≠ Some (VNum (spec_skill (prop {[ "empathy" := VNum Infinity ]} "empathy")
                           (prop ∅ "empathy")))
  ∧ updated_skill {[ "empathy" := VNum Infinity ]} ∅ "empathy" = Some (VNum (of_Z 100))
  ∧ spec_skill (prop {[ "empathy" := VNum Infinity ]} "empathy") (prop ∅ "empathy") = of_Z 35
  ∧ updated_skill {[ "empathy" := VNum (of_Z 200) ]} ∅ "empathy"
    ≠ Some (VNum (Math_round (mul (spec_current (VNum (of_Z 200))) lit_0_7)))
  ∧ updated_skill {[ "empathy" := VNum (of_Z 200) ]} ∅ "empathy" = Some (VNum (of_Z 100))
  ∧ Math_round (mul (spec_current (VNum (of_Z 200))) lit_0_7) = of_Z 140.
Proof. vm_compute. repeat split; discriminate. Qed.

(** C5, amended. For every current skill map and gained skill map, and
    for each of the four skill names, [updateSkills] returns
    [round (min (100, c * 0.7 + g * 0.3))] where [c] is the current value if
    it is a number other than NaN (the infinities included) and 50
    otherwise, and [g] is the gained value if it is a number other than NaN
    and 0 otherwise; in particular with an empty gained map every output
    skill equals [round (min (100, c * 0.7))]. *)
Theorem C5_updateSkills_weighted_blend
    (currentSkills gained : gmap string value) (sessionCount : number) (name : string) :
  name ∈ skill_names →
  (∃ out, updateSkills currentSkills (Some gained) sessionCount = inr out
          ∧ out !! name
            = Some (VNum (amended_skill (prop currentSkills name) (prop gained name))))
  ∧ (∃ out v, updateSkills currentSkills (Some ∅) sessionCount = inr out
              ∧ out !! name = Some (VNum v)
              ∧ SameValueZero v
                  (Math_round (Math_min (of_Z 100)
                     (mul (number_or (of_Z 50) (prop currentSkills name)) lit_0_7)))
                = true).
Proof.
  intros Hin. split.
  - destruct (updateSkills_lookup currentSkills gained sessionCount name Hin)
      as (out & Hout & Hlook).
    exists out. by rewrite <- blend_amended_skill.
  - destruct (updateSkills_lookup currentSkills ∅ sessionCount name Hin)
      as (out & Hout & Hlook).
    eexists out, _. split; [exact Hout|]. split; [exact Hlook|].
    rewrite blend_amended_skill. unfold amended_skill.
    unfold prop at 2. rewrite lookup_empty.
    change (mul (number_or (of_Z 0) (default VUndefined None)) lit_0_3)
      with (S754_zero false).
    apply add_zero_SameValueZero.
Qed.

Lemma C5_updateSkills_weighted_blend_witness :
  ∃ out, updateSkills {[ "empathy" := VNum Infinity ]} (Some ∅) (of_Z 1) = inr out
         ∧ out !! "empathy"
           = Some (VNum (amended_skill (prop {[ "empathy" := VNum Infinity ]} "empathy")
                                       (prop ∅ "empathy"))).
Proof.
  apply (C5_updateSkills_weighted_blend {[ "empathy" := VNum Infinity ]} ∅ (of_Z 1) "empathy").
  apply elem_of_cons. by left.
Defined.

(** ** updateSkills: the range of the result *)

Lemma same_eq (x y : number) : same x y = true → x = y.
Proof.
  destruct x as [s|s| |s m e], y as [s'|s'| |s' m' e']; cbn; try discriminate.
  - intros H. apply Bool.eqb_prop in H. by subst.
  - intros H. apply Bool.eqb_prop in H. by subst.
  - reflexivity.
  - intros H. apply andb_true_iff in H as [H He]. apply andb_true_iff in H as [Hs Hm].
    apply Bool.eqb_prop in Hs. apply Pos.eqb_eq in Hm. apply Z.eqb_eq in He. by subst.
Qed.

Lemma integer_0_100_inv (x : number) :
  integer_0_100 x = true → ∃ r, 0 ≤ r ≤ 100 ∧ x = of_Z r.
Proof.
  unfold integer_0_100. destruct (to_Z x) as [r|]; [|discriminate].
  intros H. apply andb_true_iff in H as [H Hs]. apply andb_true_iff in H as [H0 H1].
  exists r. split; [lia|]. by apply same_eq.
Qed.

Lemma blend_grid_checked : forallb blend_row_ok (seqZ 0 101) = true.
Proof. vm_compute. reflexivity. Qed.

(** Every blend of two integers of [0,100] is an integer of [0,100]:
    the binary64 computation is run on each of the 101 x 101 pairs. *)
Lemma blend_grid (c g : Z) :
  0 ≤ c ≤ 100 → 0 ≤ g ≤ 100 →
  ∃ r, 0 ≤ r ≤ 100 ∧ blend (VNum (of_Z c)) (VNum (of_Z g)) = of_Z r.
Proof.
  intros Hc Hg. apply integer_0_100_inv.
  assert (∀ k, 0 ≤ k ≤ 100 → In k (seqZ 0 101)) as Hmem.
  { intros k Hk. apply list_elem_of_In, elem_of_seqZ. lia. }
  pose proof (proj1 (forallb_forall blend_row_ok (seqZ 0 101)) blend_grid_checked
                c (Hmem c Hc)) as Hrow.
  unfold blend_row_ok in Hrow.
  exact (proj1 (forallb_forall _ (seqZ 0 101)) Hrow g (Hmem g Hg)).
Qed.

Lemma of_Z_not_NaN (n : Z) : Z.abs n < 2 ^ 53 → isNaN (of_Z n) = false.
Proof.
  intros Hn. destruct n as [|p|p]; [reflexivity| |].
  - destruct (binary_round_integer false p (digits_le_53 p Hn)) as (mz & Hof & _).
    unfold of_Z, binary_normalize. by rewrite Hof.
  - destruct (binary_round_integer true p (digits_le_53 p Hn)) as (mz & Hof & _).
    unfold of_Z, binary_normalize. by rewrite Hof.
Qed.

Lemma number_or_in_range (d : Z) (o : gmap string value) (name : string) :
  0 ≤ d ≤ 100 →
  (∀ k v, o !! k = Some v → ∃ n, 0 ≤ n ≤ 100 ∧ v = VNum (of_Z n)) →
  ∃ n, 0 ≤ n ≤ 100
       ∧ number_or (of_Z d) (prop o name) = number_or (of_Z d) (VNum (of_Z n)).
Proof.
  intros Hd Hall. unfold prop. destruct (o !! name) as [v|] eqn:Hv.
  - destruct (Hall name v Hv) as (n & Hn & ->). exists n. done.
  - exists d. split; [done|]. cbn. by destruct (isNaN (of_Z d)).
Qed.

(** C8. When the values present in the current map and in the gained map
    are integers of [0,100], each of the four skills returned by
    [updateSkills] is an integer of [0,100].  Above, the result is cut off
    by the explicit [Math.min(100, ...)]; below, nothing cuts it off, and it
    is non-negative only because the inputs are: a negative current value
    gives a negative result. *)
Theorem C8_updated_skills_in_range
    (currentSkills gained : gmap string value) (sessionCount : number) (name : string) :
  (∀ k v, currentSkills !! k = Some v → ∃ n, 0 ≤ n ≤ 100 ∧ v = VNum (of_Z n)) →
  (∀ k v, gained !! k = Some v → ∃ n, 0 ≤ n ≤ 100 ∧ v = VNum (of_Z n)) →
  name ∈ skill_names →
  (∃ out r, updateSkills currentSkills (Some gained) sessionCount = inr out
            ∧ out !! name = Some (VNum (of_Z r))
            ∧ 0 ≤ r ≤ 100)
  ∧ blend (VNum (of_Z 200)) (VNum (of_Z 200)) = of_Z 100
  ∧ blend (VNum (of_Z (-100))) VUndefined = of_Z (-70).
Proof.
  intros Hcur Hgain Hin. split; [|vm_compute; by split].
  destruct (updateSkills_lookup currentSkills gained sessionCount name Hin)
    as (out & Hout & Hlook).
  destruct (number_or_in_range 50 currentSkills name ltac:(lia) Hcur) as (c & Hc & Hce).
  destruct (number_or_in_range 0 gained name ltac:(lia) Hgain) as (g & Hg & Hge).
  destruct (blend_grid c g Hc Hg) as (r & Hr & Hblend).
  exists out, r. split; [exact Hout|]. split; [|exact Hr].
  rewrite Hlook. do 2 f_equal.
  rewrite <- Hblend. unfold blend.
  by rewrite !getCur_number_or, !getVal_number_or, Hce, Hge.
Qed.

Lemma C8_updated_skills_in_range_witness :
  ∃ out r,
    updateSkills {[ "empathy" := VNum (of_Z 100) ]} (Some {[ "empathy" := VNum (of_Z 100) ]})
                 (of_Z 1) = inr out
    ∧ out !! "empathy" = Some (VNum (of_Z r))
    ∧ 0 ≤ r ≤ 100.
Proof.
  apply (C8_updated_skills_in_range {[ "empathy" := VNum (of_Z 100) ]}
           {[ "empathy" := VNum (of_Z 100) ]} (of_Z 1) "empathy").
  - intros k v Hk. apply lookup_singleton_Some in Hk as [_ <-]. exists 100. split; [lia|reflexivity].
  - intros k v Hk. apply lookup_singleton_Some in Hk as [_ <-]. exists 100. split; [lia|reflexivity].
  - apply elem_of_cons. by left.
Defined.


(** * Further properties of the session fold *)

Section SaveFrame.

Local Arguments of_Z : simpl never.
Local Arguments add : simpl never.
Local Arguments mul : simpl never.
Local Arguments div : simpl never.
Local Arguments Math_round : simpl never.
Local Arguments blend : simpl never.
Local Arguments collectUpdates : simpl never.
Local Arguments calculateStreak : simpl never.

(** What a successful save leaves alone and what it appends. *)
Lemma saveSessionResults_frame w uid doc sdoc sd g :
  currentUser w = Some uid →
  userDoc w = Some doc →
  users w !! uid = Some sdoc →
  skillsGained sd = Some g →
  ∃ w',
    (saveSessionResults sd w).2 = w'
    ∧ currentUser w' = Some uid
    ∧ clock w' = clock w
    ∧ serverTime w' = serverTime w
    ∧ userDoc w' = users w' !! uid
    ∧ sessions w'
      = <[uid := default [] (sessions w !! uid) ++ [session_record sd w]]> (sessions w)
    ∧ (∀ other, other ≠ uid → users w' !! other = users w !! other).
Proof.
  intros Hu Hd Hs Hg.
  unfold saveSessionResults, mbind, M_bind, get, try_catch, mret, M_ret.
  rewrite Hu, Hd. cbn. rewrite Hd. cbn.
  rewrite Hg. cbn.
  unfold update_user at 1. cbn. rewrite Hs. cbn.
  unfold checkAchievements. cbn. rewrite Hu, Hd.
  destruct (collectUpdates doc sd (serverTime w)) as [updates reported] eqn:Hc.
  cbn.
  destruct (decide (updates = ∅)) as [->|Hne].
  - unfold loadUserData, mbind, M_bind, get, modify. cbn.
    rewrite lookup_insert_eq. cbn.
    eexists. split; [reflexivity|]. cbn. rewrite lookup_insert_eq.
    repeat split; try done.
    intros other Hne. by rewrite lookup_insert_ne.
  - unfold update_user. cbn. rewrite lookup_insert_eq. cbn.
    unfold loadUserData, mbind, M_bind, get, modify. cbn.
    rewrite lookup_insert_eq. cbn.
    eexists. split; [reflexivity|]. cbn. rewrite lookup_insert_eq.
    repeat split; try done.
    intros other Hne'. by rewrite !lookup_insert_ne.
Qed.

(** What a save that fails in [updateSkills] has already done. *)
Lemma saveSessionResults_absent_frame w uid doc sd :
  currentUser w = Some uid →
  userDoc w = Some doc →
  skillsGained sd = None →
  ∃ r w',
    saveSessionResults sd w = (r, w')
    ∧ success r = false
    ∧ users w' = users w
    ∧ userDoc w' = userDoc w
    ∧ sessions w'
      = <[uid := default [] (sessions w !! uid) ++ [session_record sd w]]> (sessions w).
Proof.
  intros Hu Hd Hg.
  unfold saveSessionResults, mbind, M_bind, get, try_catch, mret, M_ret.
  rewrite Hu, Hd. cbn. rewrite Hd. cbn.
  rewrite Hg. cbn.
  eexists _, _. split; [reflexivity|]. cbn. rewrite Hd. done.
Qed.

(** A save without a snapshot first loads it. *)
Lemma saveSessionResults_loads_first w uid sd :
  currentUser w = Some uid →
  userDoc w = None →
  saveSessionResults sd w = saveSessionResults sd (loadUserData uid w).2.
Proof.
  intros Hu Hd.
  assert (∃ d w1, loadUserData uid w = (inr tt, w1)
                  ∧ userDoc w1 = Some d ∧ currentUser w1 = Some uid) as (d & w1 & Hl & Hd1 & Hu1).
  { unfold loadUserData, mbind, M_bind, get, modify, createUserDocument. cbn.
    destruct (users w !! uid) as [d|] eqn:Hs; cbn.
    - eexists d, _. done.
    - rewrite lookup_insert_eq. eexists initialData, _. done. }
  rewrite Hl. cbn [snd].
  unfold saveSessionResults, mbind, M_bind, get, try_catch, mret, M_ret.
  rewrite Hu, Hd, Hl, Hu1, Hd1. cbn. rewrite Hd1. reflexivity.
Qed.

End SaveFrame.

(** ** Invariants of a sequence of saves *)

Lemma in_sync_save (uid : string) (sd : SessionData) (w : World) :
  in_sync uid w →
  in_sync uid (saveSessionResults sd w).2
  ∧ clock (saveSessionResults sd w).2 = clock w
  ∧ serverTime (saveSessionResults sd w).2 = serverTime w.
Proof.
  intros (Hu & d & Hd & Hs).
  destruct (skillsGained sd) as [g|] eqn:Hg.
  - destruct (saveSessionResults_frame w uid d d sd g Hu Hd Hs Hg)
      as (w' & Hw' & Hu' & Hc & Ht & Hsync & _).
    destruct (saveSessionResults_present w uid d d sd g Hu Hd Hs Hg)
      as (w'' & d' & _ & Hsave & _ & Hst & Hud & _).
    rewrite Hsave in Hw'. cbn [snd] in Hw'. subst w''.
    rewrite Hsave. cbn [snd]. repeat split; try done.
    exists d'. done.
  - destruct (saveSessionResults_absent_frame w uid d sd Hu Hd Hg)
      as (r & w' & Hsave & _ & Hus & Hud & _).
    pose proof (saveSessionResults_absent w uid d sd Hu Hd Hg) as (w'' & msg & Hsave' & _).
    rewrite Hsave. cbn [snd].
    unfold saveSessionResults, mbind, M_bind, get, try_catch, mret, M_ret in Hsave.
    rewrite Hu, Hd in Hsave. cbn in Hsave. rewrite Hd in Hsave. cbn in Hsave.
    rewrite Hg in Hsave. cbn in Hsave. injection Hsave as _ <-. cbn.
    repeat split; try done. exists d. done.
Qed.

(** X1. Once the manager's snapshot and the stored document agree, they
    agree after every save, successful or not, whatever the sessions are;
    the logged-in user stays the same. *)
Theorem X1_saves_keep_snapshot_in_sync
    (uid : string) (sessionDatas : list SessionData) (w : World) :
  in_sync uid w →
  in_sync uid (save_all sessionDatas w).
Proof.
  revert w. induction sessionDatas as [|sd rest IH]; intros w Hsync; [exact Hsync|].
  cbn. apply IH. by apply in_sync_save.
Qed.

Lemma X1_saves_keep_snapshot_in_sync_witness :
  in_sync "u" (save_all [first_session_data; nan_session; second_session_data]
                        (logged_in "u" blank_doc 0)).
Proof.
  apply (X1_saves_keep_snapshot_in_sync "u"
           [first_session_data; nan_session; second_session_data]
           (logged_in "u" blank_doc 0)).
  split; [reflexivity|]. exists blank_doc. split; reflexivity.
Defined.



(** X3. A save made while the manager holds no snapshot behaves as the
    same save made after [loadUserData]; in particular, for a logged-in
    user with no stored document the initial all-zero document is created
    and the session is folded into it: one session, streak 1, all four
    skills blended from a current value of 0. *)
Theorem X3_save_without_snapshot_loads_first
    (w : World) (uid : string) (sd : SessionData) (g : gmap string value) :
  currentUser w = Some uid →
  userDoc w = None →
  skillsGained sd = Some g →
  saveSessionResults sd w = saveSessionResults sd (loadUserData uid w).2
  ∧ success (saveSessionResults sd w).1 = true
  ∧ (users w !! uid = None →
     ∃ d', stored_after sd uid w = Some d'
           ∧ totalSessions (progress d') = of_Z 1
           ∧ completedScenarios (progress d') = of_Z 1
           ∧ streak (progress d') = of_Z 1
           ∧ lastSessionDate (progress d') = Some (serverTime w)
           ∧ updateSkills (skills initialData) (Some g) (of_Z 1) = inr (skills d')).
Proof.
  intros Hu Hd Hg.
  pose proof (saveSessionResults_loads_first w uid sd Hu Hd) as Heq.
  split; [exact Heq|].
  unfold stored_after. rewrite Heq.
  unfold loadUserData, mbind, M_bind, get, modify, createUserDocument. cbn.
  destruct (users w !! uid) as [d|] eqn:Hs; cbn.
  - destruct (saveSessionResults_present (set_userDoc (Some d) w) uid d d sd g
                Hu eq_refl Hs Hg) as (w' & d' & ns & Hsave & _).
    rewrite Hsave. split; [reflexivity|]. intros; discriminate.
  - destruct (saveSessionResults_present
                (set_userDoc (Some initialData)
                   (set_users (<[uid := initialData]> (users w)) w))
                uid initialData initialData sd g Hu eq_refl
                (lookup_insert_eq _ _ _) Hg)
      as (w' & d' & ns & Hsave & Hns & Hst & _ & Hp & Hsk & _).
    rewrite lookup_insert_eq. cbn.
    rewrite Hsave. split; [reflexivity|]. intros _. exists d'. cbn [snd].
    rewrite Hp, Hsk. repeat split; try done.
Qed.

Lemma X3_save_without_snapshot_loads_first_witness :
  saveSessionResults first_session_data
    (set_userDoc None (set_users ∅ (logged_in "u" blank_doc 0)))
  = saveSessionResults first_session_data
      (loadUserData "u" (set_userDoc None (set_users ∅ (logged_in "u" blank_doc 0)))).2.
Proof.
  apply (X3_save_without_snapshot_loads_first
           (set_userDoc None (set_users ∅ (logged_in "u" blank_doc 0))) "u"
           first_session_data
           (<["empathy" := VNum (of_Z 90)]> (<["patience" := VNum (of_Z 95)]> ∅)));
    reflexivity.
Defined.

(** X4. The save overwrites [totalSessions] and [averageScore] with
    values computed from the manager's snapshot, but increments
    [completedScenarios] and [totalTimeSpent] on the stored document.  So
    when a second manager that still holds the earlier snapshot (another
    tab, say) saves after the first one, the first session is lost from the
    count and the average while both are counted as completed scenarios and
    both records are in the subcollection. *)
Theorem X4_stale_snapshot_loses_a_session
    (w : World) (uid : string) (doc : UserDoc) (sd1 sd2 : SessionData)
    (g1 g2 : gmap string value) :
  currentUser w = Some uid →
  userDoc w = Some doc →
  users w !! uid = Some doc →
  skillsGained sd1 = Some g1 →
  skillsGained sd2 = Some g2 →
  let w1 := (saveSessionResults sd1 w).2 in
  let w2 := (saveSessionResults sd2 (set_userDoc (Some doc) w1)).2 in
  ∃ d2,
    users w2 !! uid = Some d2
    ∧ totalSessions (progress d2) = add (totalSessions (progress doc)) (of_Z 1)
    ∧ averageScore (progress d2)
      = Math_round (div (add (mul (averageScore (progress doc)) (totalSessions (progress doc)))
                             (score sd2))
                        (add (totalSessions (progress doc)) (of_Z 1)))
    ∧ completedScenarios (progress d2)
      = add (add (completedScenarios (progress doc)) (of_Z 1)) (of_Z 1)
    ∧ totalTimeSpent (progress d2)
      = add (add (totalTimeSpent (progress doc)) (duration sd1)) (duration sd2)
    ∧ sessions w2 !! uid
      = Some (default [] (sessions w !! uid)
              ++ [{| session_data := sd1; completedAt := serverTime w |};
                  {| session_data := sd2; completedAt := serverTime w |}]).
Proof.
  intros Hu Hd Hs Hg1 Hg2 w1 w2.
  destruct (saveSessionResults_present w uid doc doc sd1 g1 Hu Hd Hs Hg1)
    as (w1' & d1 & ns1 & Hsave1 & _ & Hst1 & _ & Hp1 & _).
  destruct (saveSessionResults_frame w uid doc doc sd1 g1 Hu Hd Hs Hg1)
    as (w1'' & Hw1 & Hu1 & Hc1 & Ht1 & _ & Hss1 & _).
  fold w1 in Hw1. subst w1''.
  assert (w1' = w1) as -> by (unfold w1; by rewrite Hsave1).
  set (v := set_userDoc (Some doc) w1) in *.
  assert (currentUser v = Some uid) as Huv by exact Hu1.
  assert (users v !! uid = Some d1) as Hsv by exact Hst1.
  destruct (saveSessionResults_present v uid doc d1 sd2 g2 Huv eq_refl Hsv Hg2)
    as (w2' & d2 & ns2 & Hsave2 & _ & Hst2 & _ & Hp2 & _).
  destruct (saveSessionResults_frame v uid doc d1 sd2 g2 Huv eq_refl Hsv Hg2)
    as (w2'' & Hw2 & _ & _ & _ & _ & Hss2 & _).
  fold w2 in Hw2. subst w2''.
  assert (w2' = w2) as -> by (unfold w2; by rewrite Hsave2).
  exists d2. split; [exact Hst2|].
  rewrite Hp2. unfold savedProgress.
  cbn [totalSessions averageScore completedScenarios totalTimeSpent].
  rewrite Hp1. unfold savedProgress. cbn [completedScenarios totalTimeSpent].
  repeat split.
  rewrite Hss2. rewrite lookup_insert_eq.
  change (sessions v) with (sessions w1). rewrite Hss1, lookup_insert_eq. cbn [default from_option].
  unfold session_record. change (serverTime v) with (serverTime w1). rewrite Ht1.
  unfold Datatypes.id. by rewrite <- app_assoc.
Qed.

Lemma X4_stale_snapshot_loses_a_session_witness :
  ∃ d2,
    users (saveSessionResults (scored 60)
             (set_userDoc (Some blank_doc)
                (saveSessionResults (scored 95) (logged_in "u" blank_doc 0)).2)).2 !! "u"
    = Some d2
    ∧ totalSessions (progress d2) = add (totalSessions (progress blank_doc)) (of_Z 1).
Proof.
  destruct (X4_stale_snapshot_loses_a_session (logged_in "u" blank_doc 0) "u" blank_doc
              (scored 95) (scored 60) ∅ ∅ eq_refl eq_refl eq_refl eq_refl eq_refl)
    as (d2 & Hst & Hn & _).
  exists d2. split; [exact Hst | exact Hn].
Defined.

(** ** Achievements are unlocked once and kept *)

Lemma foldl_checkOne_existsb doc sd i defs :
  existsb (λ a, String.eqb (id a) i && fires doc sd a) defs = true
  ↔ i ∈ id <$> filter (λ a, fires doc sd a = true) defs.
Proof.
  rewrite existsb_exists, list_elem_of_fmap. split.
  - intros (a & Hin & Ha). apply andb_true_iff in Ha as [Hid Hf].
    apply String.eqb_eq in Hid. exists a. split; [done|].
    apply list_elem_of_filter. split; [done|]. by apply list_elem_of_In.
  - intros (a & -> & Hin). apply list_elem_of_filter in Hin as [Hf Hin].
    exists a. split; [by apply list_elem_of_In|].
    by rewrite String.eqb_refl, Hf.
Qed.

Lemma reported_fires doc sd t i :
  i ∈ (collectUpdates doc sd t).2 →
  achievements doc !! i = None ∧ i ∈ achievement_ids.
Proof.
  unfold collectUpdates. rewrite foldl_checkOne_reported. cbn [snd app].
  intros (a & -> & Hin)%list_elem_of_fmap.
  apply list_elem_of_filter in Hin as [Hf Hin]. split.
  - unfold fires in Hf. by destruct (achievements doc !! id a).
  - unfold getAchievementsToCheck in Hin.
    repeat (apply elem_of_cons in Hin as [->|Hin]; [cbn [id]; unfold achievement_ids;
                                                     rewrite !elem_of_cons; tauto|]).
    by apply elem_of_nil in Hin.
Qed.

Lemma reported_NoDup doc sd t : NoDup (collectUpdates doc sd t).2.
Proof.
  unfold collectUpdates. rewrite foldl_checkOne_reported. cbn [snd app].
  eapply sublist_NoDup; [|apply fmap_sublist, sublist_filter].
  unfold getAchievementsToCheck. cbn [fmap list_fmap id].
  apply (bool_decide_unpack _). vm_compute. reflexivity.
Qed.

(** X5. With the snapshot in sync, a successful save never changes or
    removes an achievement already stored: each stored entry keeps its
    [unlockedAt].  The entries it adds are exactly the ids it reports, each
    reported once, each one of the five ids of the table, each stamped with
    the server time of this save. *)
Theorem X5_achievements_unlock_once_and_stay
    (w : World) (uid : string) (doc : UserDoc) (sd : SessionData)
    (g : gmap string value) :
  currentUser w = Some uid →
  userDoc w = Some doc →
  users w !! uid = Some doc →
  skillsGained sd = Some g →
  ∃ w' d' reported,
    (saveSessionResults sd w).2 = w'
    ∧ users w' !! uid = Some d'
    ∧ unlockLog w' = unlockLog w ++ reported
    ∧ NoDup reported
    ∧ (∀ i, i ∈ reported → i ∈ achievement_ids)
    ∧ (∀ i, achievements d' !! i
            = match achievements doc !! i with
              | Some a => Some a
              | None => if bool_decide (i ∈ reported)
                        then Some {| unlockedAt := serverTime w |}
                        else None
              end).
Proof.
  intros Hu Hd Hs Hg.
  destruct (saveSessionResults_present w uid doc doc sd g Hu Hd Hs Hg)
    as (w' & d' & ns & Hsave & _ & Hst & _ & _ & _ & Ha & Hlog).
  exists w', d', (collectUpdates doc sd (serverTime w)).2.
  split; [by rewrite Hsave|]. split; [done|]. split; [done|].
  split; [apply reported_NoDup|].
  split; [intros i Hi; by apply (reported_fires doc sd (serverTime w))|].
  intros i. rewrite Ha, lookup_union.
  unfold collectUpdates at 1. rewrite foldl_checkOne_lookup. cbn [fst].
  rewrite lookup_empty.
  destruct (existsb _ _) eqn:Hex.
  - apply foldl_checkOne_existsb in Hex.
    assert (i ∈ (collectUpdates doc sd (serverTime w)).2) as Hin.
    { unfold collectUpdates. by rewrite foldl_checkOne_reported. }
    destruct (reported_fires doc sd (serverTime w) i Hin) as [Hnone _].
    rewrite Hnone, bool_decide_eq_true_2 by done. done.
  - destruct (achievements doc !! i) as [a|]; [done|].
    rewrite bool_decide_eq_false_2; [done|].
    intros Hin. unfold collectUpdates in Hin.
    rewrite foldl_checkOne_reported in Hin. cbn [snd app] in Hin.
    apply foldl_checkOne_existsb in Hin. congruence.
Qed.

Lemma X5_achievements_unlock_once_and_stay_witness :
  ∃ w' d' reported,
    (saveSessionResults first_session_data (logged_in "u" blank_doc 0)).2 = w'
    ∧ users w' !! "u" = Some d'
    ∧ unlockLog w' = unlockLog (logged_in "u" blank_doc 0) ++ reported
    ∧ NoDup reported.
Proof.
  destruct (X5_achievements_unlock_once_and_stay (logged_in "u" blank_doc 0) "u"
              blank_doc first_session_data
              (<["empathy" := VNum (of_Z 90)]> (<["patience" := VNum (of_Z 95)]> ∅))
              eq_refl eq_refl eq_refl eq_refl)
    as (w' & d' & reported & H1 & H2 & H3 & H4 & _).
  exists w', d', reported.
  split; [exact H1|]. split; [exact H2|]. split; [exact H3 | exact H4].
Defined.

(** ** The streak over several saves *)

Lemma save_at_step (uid : string) (t : Z) (sd : SessionData) (g : gmap string value)
    (d : UserDoc) (w : World) :
  currentUser w = Some uid →
  userDoc w = Some d →
  users w !! uid = Some d →
  skillsGained sd = Some g →
  ∃ d',
    currentUser (save_at t sd w) = Some uid
    ∧ userDoc (save_at t sd w) = Some d'
    ∧ users (save_at t sd w) !! uid = Some d'
    ∧ progress d' = savedProgress d d sd (set_clocks t w)
    ∧ updateSkills (skills d) (Some g) (add (totalSessions (progress d)) (of_Z 1))
      = inr (skills d').
Proof.
  intros Hu Hd Hs Hg. unfold save_at.
  destruct (saveSessionResults_present (set_clocks t w) uid d d sd g Hu Hd Hs Hg)
    as (w' & d' & ns & Hsave & Hns & Hst & Hud & Hp & Hsk & _).
  destruct (saveSessionResults_frame (set_clocks t w) uid d d sd g Hu Hd Hs Hg)
    as (w'' & Hw' & Hu' & _).
  rewrite Hsave in *. cbn [snd] in *. subst w''.
  exists d'. rewrite Hsk. done.
Qed.




(** ** deleteSession *)

Lemma deleteSession_logged_in (sid uid : string) (root : list (string * RootSession))
    (sdoc : UserDoc) (w : World) :
  currentUser w = Some uid →
  users w !! uid = Some sdoc →
  let root' := filter (λ p, p.1 ≠ sid) root in
  let d' := {| progress := recalculated (owned_by uid root') (progress sdoc);
               skills := skills sdoc;
               achievements := achievements sdoc |} in
  deleteSession sid root w
  = (Deleted, root', set_userDoc (Some d') (set_users (<[uid := d']> (users w)) w)).
Proof.
  intros Hu Hs root' d'. unfold deleteSession, update_user. rewrite Hu, Hs.
  unfold loadUserData, mbind, M_bind, get, modify. cbn [users set_users].
  rewrite lookup_insert_eq. reflexivity.
Qed.

(** X7. [deleteSession] recomputes the statistics from the root
    collection [sessions] alone, whereas [saveSessionResults] records
    sessions under [users/<uid>/sessions].  When the root collection holds
    no session of the user, deleting any id sets [totalSessions],
    [averageScore] and [totalTimeSpent] to 0, whatever they were, while
    [completedScenarios], [streak], [lastSessionDate], the skills, the
    achievements and the recorded sessions of the subcollection all stay. *)
Theorem X7_deleteSession_ignores_saved_sessions
    (sid uid : string) (root : list (string * RootSession)) (sdoc : UserDoc) (w : World) :
  currentUser w = Some uid →
  users w !! uid = Some sdoc →
  owned_by uid (filter (λ p, p.1 ≠ sid) root) = [] →
  ∃ root' w' d',
    deleteSession sid root w = (Deleted, root', w')
    ∧ users w' !! uid = Some d'
    ∧ userDoc w' = Some d'
    ∧ progress d'
      = {| totalSessions := of_Z 0;
           completedScenarios := completedScenarios (progress sdoc);
           averageScore := of_Z 0;
           totalTimeSpent := of_Z 0;
           streak := streak (progress sdoc);
           lastSessionDate := lastSessionDate (progress sdoc) |}
    ∧ skills d' = skills sdoc
    ∧ achievements d' = achievements sdoc
    ∧ sessions w' = sessions w.
Proof.
  intros Hu Hs Hnone.
  rewrite (deleteSession_logged_in sid uid root sdoc w Hu Hs). cbn zeta.
  rewrite Hnone. eexists _, _, _. split; [reflexivity|].
  cbn [users set_users set_userDoc userDoc sessions].
  rewrite lookup_insert_eq. repeat split.
Qed.

Lemma X7_deleteSession_ignores_saved_sessions_witness :
  ∃ root' w' d',
    deleteSession "s1" [] (save_all [scored 95; scored 60] (logged_in "u" blank_doc 0))
    = (Deleted, root', w')
    ∧ users w' !! "u" = Some d'
    ∧ totalSessions (progress d') = of_Z 0
    ∧ length (default [] (sessions w' !! "u")) = 2%nat.
Proof.
  destruct (X7_deleteSession_ignores_saved_sessions "s1" "u" []
              (default blank_doc
                 (users (save_all [scored 95; scored 60] (logged_in "u" blank_doc 0)) !! "u"))
              (save_all [scored 95; scored 60] (logged_in "u" blank_doc 0))
              ltac:(vm_compute; reflexivity) ltac:(vm_compute; reflexivity) eq_refl)
    as (root' & w' & d' & Hdel & Hst & _ & Hp & _ & _ & Hss).
  exists root', w', d'. split; [exact Hdel|]. split; [exact Hst|].
  split; [by rewrite Hp|]. rewrite Hss. vm_compute. reflexivity.
Defined.

(** X8. [deleteSession] checks only that somebody is logged in, not whose
    session it deletes: for a logged-in user the document with the given id
    is removed from the root collection whoever owns it, the other
    documents are kept in order, and no other user's document is
    recomputed.  The deletion comes first: when the caller's own user
    document is missing the call reports failure and the session is gone
    all the same.  When nobody is logged in nothing is deleted. *)
Theorem X8_deleteSession_deletes_before_it_checks
    (sid uid : string) (root : list (string * RootSession)) (w : World) :
  currentUser w = Some uid →
  ∃ r w',
    deleteSession sid root w = (r, filter (λ p, p.1 ≠ sid) root, w')
    ∧ (sid ∉ fst <$> filter (λ p, p.1 ≠ sid) root)
    ∧ (∀ other, other ≠ uid → users w' !! other = users w !! other)
    ∧ (users w !! uid = None → r = NotDeleted "not-found" ∧ w' = w)
    ∧ (is_Some (users w !! uid) → r = Deleted)
    ∧ deleteSession sid root (at_time 0) = (NotDeleted "No user logged in", root, at_time 0).
Proof.
  intros Hu.
  assert (sid ∉ fst <$> filter (λ p, p.1 ≠ sid) root) as Hgone.
  { intros (p & Hp & Hin)%list_elem_of_fmap. apply list_elem_of_filter in Hin as [Hne _].
    by apply Hne. }
  destruct (users w !! uid) as [sdoc|] eqn:Hs.
  - rewrite (deleteSession_logged_in sid uid root sdoc w Hu Hs). cbn zeta.
    eexists _, _. split; [reflexivity|]. split; [exact Hgone|].
    cbn [users set_users set_userDoc]. repeat split; try done.
    intros other Hne. by rewrite lookup_insert_ne.
  - unfold deleteSession, update_user. rewrite Hu, Hs. cbn.
    eexists _, _. split; [reflexivity|]. split; [exact Hgone|].
    repeat split; try done; by intros [? ?].
Qed.

Lemma X8_deleteSession_deletes_before_it_checks_witness :
  ∃ r w',
    deleteSession "s1"
      [("s1", {| rs_userId := Some "someone else"; rs_score := VNum (of_Z 80);
                 rs_duration := VNum (of_Z 60000) |})]
      (logged_in "u" blank_doc 0)
    = (r, filter (λ p, p.1 ≠ "s1")
            [("s1", {| rs_userId := Some "someone else"; rs_score := VNum (of_Z 80);
                       rs_duration := VNum (of_Z 60000) |})], w').
Proof.
  destruct (X8_deleteSession_deletes_before_it_checks "s1" "u"
              [("s1", {| rs_userId := Some "someone else"; rs_score := VNum (of_Z 80);
                         rs_duration := VNum (of_Z 60000) |})]
              (logged_in "u" blank_doc 0) eq_refl) as (r & w' & Hdel & _).
  exists r, w'. exact Hdel.
Defined.





(** ** Tone analysis *)

Lemma dominant_invariant (l : list Z) :
  ∃ a i,
    foldl dominantStep (0, 0%nat, 0%nat) l = (a, i, length l)
    ∧ 0 ≤ a
    ∧ (∀ x, x ∈ l → x ≤ a)
    ∧ (a = 0 → i = 0%nat)
    ∧ (0 < a → l !! i = Some a ∧ ∀ j y, (j < i)%nat → l !! j = Some y → y < a).
Proof.
  induction l as [|x l IH] using rev_ind.
  - exists 0, 0%nat. repeat split; try done; try lia. intros x Hx. by apply elem_of_nil in Hx.
  - destruct IH as (a & i & Hfold & Ha & Hmax & Hzero & Hfirst).
    rewrite foldl_app, Hfold. cbn [foldl dominantStep]. rewrite length_app. cbn [length].
    replace (length l + 1)%nat with (S (length l)) by lia.
    destruct (Z.ltb_spec a x) as [Hlt|Hge].
    + exists x, (length l). split; [reflexivity|]. split; [lia|]. split; [|split].
      * intros y [Hy|Hy]%elem_of_app; [specialize (Hmax y Hy); lia|].
        apply list_elem_of_singleton in Hy. lia.
      * lia.
      * intros _. split.
        -- rewrite lookup_app_r by lia. by rewrite Nat.sub_diag.
        -- intros j y Hj Hy. rewrite lookup_app_l in Hy by lia.
           apply list_elem_of_lookup_2 in Hy. specialize (Hmax y Hy). lia.
    + exists a, i. split; [reflexivity|]. split; [lia|]. split; [|split].
      * intros y [Hy|Hy]%elem_of_app; [by apply Hmax|].
        apply list_elem_of_singleton in Hy. lia.
      * exact Hzero.
      * intros Hpos. destruct (Hfirst Hpos) as [Hi Hbefore].
        pose proof (lookup_lt_Some _ _ _ Hi) as Hlen. split.
        -- by rewrite lookup_app_l.
        -- intros j y Hj Hy. rewrite lookup_app_l in Hy by lia. by apply (Hbefore j).
Qed.

(** X10. The loop of [analyzeTone] that looks for the dominant frequency
    returns the largest amplitude of the array and the first index at
    which it occurs: no entry exceeds it and every earlier entry is strictly
    smaller.  When no entry is above 0, the empty array included, it
    answers index 0 with amplitude 0. *)
Theorem X10_dominantBin_first_maximum (dataArray : list Z) :
  (∀ x, x ∈ dataArray → x ≤ (dominantBin dataArray).1)
  ∧ ((dominantBin dataArray).1 = 0 → (dominantBin dataArray).2 = 0%nat)
  ∧ (0 < (dominantBin dataArray).1 →
     dataArray !! (dominantBin dataArray).2 = Some (dominantBin dataArray).1
     ∧ ∀ j y, (j < (dominantBin dataArray).2)%nat → dataArray !! j = Some y →
              y < (dominantBin dataArray).1).
Proof.
  destruct (dominant_invariant dataArray) as (a & i & Hfold & _ & Hmax & Hzero & Hfirst).
  unfold dominantBin. rewrite Hfold. cbn [fst snd]. done.
Qed.

Lemma X10_dominantBin_first_maximum_witness :
  sample_spectrum !! (dominantBin sample_spectrum).2 = Some (dominantBin sample_spectrum).1
  ∧ ∀ j y, (j < (dominantBin sample_spectrum).2)%nat → sample_spectrum !! j = Some y →
           y < (dominantBin sample_spectrum).1.
Proof.
  apply (X10_dominantBin_first_maximum sample_spectrum). reflexivity.
Defined.

Lemma silent_sum (timeData : list Z) :
  Forall (λ b, b = 128) timeData →
  sumOfSquares timeData = of_Z 0.
Proof.
  unfold sumOfSquares.
  induction timeData as [|b l IH] using rev_ind; [reflexivity|].
  rewrite Forall_app, Forall_singleton. intros [Hl ->].
  rewrite foldl_app, (IH Hl). reflexivity.
Qed.

Lemma silent_spectrum (spectrum : list Z) :
  Forall (λ x, x = 0) spectrum → dominantBin spectrum = (0, 0%nat).
Proof.
  intros Hall.
  destruct (dominant_invariant spectrum) as (a & i & Hfold & Ha & Hmax & Hzero & Hfirst).
  unfold dominantBin. rewrite Hfold. cbn [fst].
  assert (a = 0) as ->.
  { destruct (Z.eq_dec a 0) as [|Hne]; [done|].
    destruct Hfirst as [Hi _]; [lia|].
    apply list_elem_of_lookup_2 in Hi. rewrite Forall_forall in Hall.
    by apply Hall in Hi. }
  by rewrite Hzero.
Qed.

(** X11. A silent input, every time-domain sample at the midpoint 128 and
    every frequency bin at 0, is analysed as volume 0 and pitch 0, and
    [getToneType] calls that neutral; so does it call the [null] that
    [analyzeTone] returns when the microphone cannot be opened. *)
Theorem X11_silence_is_neutral (a : AudioInput) (m : positive) (e : Z) :
  length (timeDataArray a) = 2048%nat →
  Forall (λ b, b = 128) (timeDataArray a) →
  Forall (λ x, x = 0) (dataArray a) →
  sampleRate a = S754_finite false m e →
  analyzeTone (Some a) = Some {| volume := of_Z 0; pitch := of_Z 0 |}
  ∧ getToneType (analyzeTone (Some a)) = neutral
  ∧ getToneType (analyzeTone None) = neutral.
Proof.
  intros Hlen Htime Hfreq Hrate.
  assert (volumeOf (timeDataArray a) = of_Z 0) as Hv.
  { unfold volumeOf. rewrite (silent_sum _ Htime), Hlen. reflexivity. }
  assert (pitchOf (dataArray a) (sampleRate a) = of_Z 0) as Hp.
  { unfold pitchOf. rewrite (silent_spectrum _ Hfreq), Hrate. reflexivity. }
  unfold analyzeTone. rewrite Hv, Hp. done.
Qed.

Lemma X11_silence_is_neutral_witness :
  analyzeTone (Some silent_input) = Some {| volume := of_Z 0; pitch := of_Z 0 |}
  ∧ getToneType (analyzeTone (Some silent_input)) = neutral
  ∧ getToneType (analyzeTone None) = neutral.
Proof.
  exact (X11_silence_is_neutral silent_input 6061057848115200 (-37)
           (length_replicate 2048 128)
           (Forall_replicate (λ b, b = 128) 2048 128 eq_refl)
           (Forall_replicate (λ x, x = 0) 1024 0 eq_refl)
           eq_refl).
Defined.

Lemma SFcompare_antisym (x y : number) :
  SFcompare y x = CompOpp <$> SFcompare x y.
Proof.
  destruct x as [s|s| |s m e], y as [s'|s'| |s' m' e']; cbn;
    try (destruct s; try destruct s'; reflexivity); try reflexivity.
  change (PosDef.Pos.compare_cont Eq m' m) with (Pos.compare m' m).
  change (PosDef.Pos.compare_cont Eq m m') with (Pos.compare m m').
  rewrite (Z.compare_antisym e e'), (Pos.compare_antisym m m').
  destruct s, s'; cbn; try reflexivity;
    destruct (e ?= e'); cbn; try reflexivity;
    by rewrite ?CompOpp_involutive.
Qed.

Lemma le_not_lt (x y : number) : le x y = true → lt y x = false.
Proof.
  unfold le, lt, SFleb, SFltb. rewrite (SFcompare_antisym x y).
  by destruct (SFcompare x y) as [[| |]|].
Qed.

Lemma NaN_compares_false (x y : number) :
  isNaN x = true ∨ isNaN y = true →
  SFltb x y = false ∧ SFleb x y = false.
Proof.
  unfold SFltb, SFleb.
  intros [H|H]; [destruct x; try discriminate | destruct y; try discriminate];
    cbn; [done|]. by destruct x.
Qed.

(** X12. [getToneType] leaves a band of volumes, from 50 to 70 inclusive,
    in which the tone is neutral whatever the pitch: 'aggressive' needs a
    volume above 70 and 'calm' one below 50.  A volume or a pitch that is
    NaN gives neutral as well. *)
Theorem X12_getToneType_neutral_band (toneData : ToneData) :
  (le (of_Z 50) (volume toneData) && le (volume toneData) (of_Z 70))
  || isNaN (volume toneData) || isNaN (pitch toneData) = true →
  getToneType (Some toneData) = neutral.
Proof.
  intros H. unfold getToneType, gt, ge.
  apply orb_true_iff in H as [H|H]; [apply orb_true_iff in H as [H|H]|].
  - apply andb_true_iff in H as [H50 H70].
    apply le_not_lt in H50, H70. unfold lt in H50, H70. fold (lt (volume toneData) (of_Z 50)).
    unfold lt. by rewrite H50, H70.
  - destruct (NaN_compares_false (volume toneData) (of_Z 50) (or_introl H)) as [H1 _].
    destruct (NaN_compares_false (of_Z 70) (volume toneData) (or_intror H)) as [H2 _].
    unfold lt. by rewrite H1, H2.
  - destruct (NaN_compares_false (of_Z 250) (pitch toneData) (or_intror H)) as [H1 _].
    destruct (NaN_compares_false (of_Z 150) (pitch toneData) (or_intror H)) as [_ H2].
    unfold lt. rewrite H1, H2. by rewrite !andb_false_r.
Qed.

Lemma X12_getToneType_neutral_band_witness :
  getToneType (Some {| volume := of_Z 60; pitch := of_Z 500 |}) = neutral.
Proof.
  apply (X12_getToneType_neutral_band {| volume := of_Z 60; pitch := of_Z 500 |}).
  reflexivity.
Defined.

(** ** The default display name and loading *)

Lemma before_at_no_at (s : string) :
  at_sign ∉ String.list_ascii_of_string (before_at s).
Proof.
  induction s as [|c s IH]; cbn; [apply not_elem_of_nil|].
  destruct (Ascii.eqb_spec c at_sign) as [->|Hne]; cbn; [apply not_elem_of_nil|].
  apply not_elem_of_cons. split; [congruence | exact IH].
Qed.

Lemma before_at_split (s : string) :
  s = before_at s ∨ ∃ rest, s = before_at s +:+ String at_sign rest.
Proof.
  induction s as [|c s IH]; cbn; [by left|].
  destruct (Ascii.eqb_spec c at_sign) as [->|Hne]; cbn.
  - right. by exists s.
  - destruct IH as [IH|[rest IH]].
    + left. by rewrite <- IH.
    + right. exists rest. unfold String.app in *. cbn. by rewrite <- IH.
Qed.

(** X13. When [createUserDocument] is given no display name but an email,
    the name it stores is the part of the email before its first ['@']: it
    contains no ['@'], and the email is that name alone or that name, an
    ['@'] and the rest.  An email that begins with ['@'] therefore gives
    the empty name.  A display name that is given and not empty always
    wins. *)
Theorem X13_default_display_name
    (userId email : string) (displayName : option string) :
  displayName = None ∨ displayName = Some EmptyString →
  email ≠ EmptyString →
  let name := defaultDisplayName userId (Some email) displayName in
  (at_sign ∉ String.list_ascii_of_string name)
  ∧ (email = name ∨ ∃ rest, email = name +:+ String at_sign rest)
  ∧ (∀ rest, email = String at_sign rest → name = EmptyString)
  ∧ (∀ c given, defaultDisplayName userId (Some email) (Some (String c given))
                = String c given).
Proof.
  intros Hd He name.
  assert (name = before_at email) as ->.
  { unfold name, defaultDisplayName. destruct Hd as [->| ->]; by destruct email. }
  split; [apply before_at_no_at|]. split; [apply before_at_split|].
  split; [|reflexivity].
  intros rest ->. cbn. by rewrite Ascii.eqb_refl.
Qed.

Lemma X13_default_display_name_witness :
  at_sign ∉ String.list_ascii_of_string (defaultDisplayName "uid42" (Some "anna@school.ru") None).
Proof.
  apply (X13_default_display_name "uid42" "anna@school.ru" None);
    [by left | discriminate].
Defined.


(** ** Exact integer arithmetic of the counters *)

Lemma iter_shr_1_exact (p q : positive) :
  Pos.iter shr_1 {| shr_m := Z.pos (Pos.iter xO p q); shr_r := false; shr_s := false |} q
  = {| shr_m := Z.pos p; shr_r := false; shr_s := false |}.
Proof.
  induction q as [|q IH] using Pos.peano_ind.
  - reflexivity.
  - rewrite Pos.iter_succ_r. rewrite Pos.iter_succ. cbn [shr_1 orb]. exact IH.
Qed.

Lemma iter_pos_iter {A : Type} (f : A → A) (n : positive) (x : A) :
  SpecFloat.iter_pos f n x = Pos.iter f x n.
Proof.
  revert x. induction n as [n IH|n IH|]; intros x; cbn.
  - by rewrite !IH, <- !Pos.iter_swap.
  - by rewrite !IH.
  - reflexivity.
Qed.

Lemma Zpos_iter_xO_inj (M p q : positive) :
  Z.pos M = Z.pos p * 2 ^ Z.pos q → M = Pos.iter xO p q.
Proof. intros H. rewrite <- Zpos_iter_xO in H. by injection H. Qed.

Lemma bounded_53 (m : positive) (e : Z) :
  Z.pos (digits2_pos m) = 53 → -1074 ≤ e ≤ 971 → bounded prec emax m e = true.
Proof.
  intros Hd He. unfold bounded, canonical_mantissa, fexp, SpecFloat.emin, prec, emax.
  rewrite Hd. apply andb_true_iff. split; [apply Z.eqb_eq | apply Z.leb_le]; lia.
Qed.

Lemma digits2_pos_unique (p : positive) (d : Z) :
  2 ^ (d - 1) ≤ Z.pos p < 2 ^ d → Z.pos (digits2_pos p) = d.
Proof.
  intros [Hlo Hhi]. pose proof (digits2_pos_bounds p) as [Hlo' Hhi'].
  pose proof (Pos2Z.is_pos (digits2_pos p)).
  assert (0 < d).
  { destruct (Z.lt_trichotomy d 0) as [Hd|[->|Hd]]; [|cbn in Hhi; lia|done].
    rewrite (Z.pow_neg_r 2 d) in Hhi by lia. lia. }
  assert (2 ^ (d - 1) < 2 ^ Z.pos (digits2_pos p)) as H1 by lia.
  assert (2 ^ (Z.pos (digits2_pos p) - 1) < 2 ^ d) as H2 by lia.
  apply Z.pow_lt_mono_r_iff in H1; [|lia|lia].
  apply Z.pow_lt_mono_r_iff in H2; [|lia|lia]. lia.
Qed.

(** Rounding is exact on a significand that is a 53-bit one shifted left. *)
Lemma binary_round_aux_exact (s : bool) (M mz : positive) (e q : Z) :
  0 ≤ q →
  Z.pos M = Z.pos mz * 2 ^ q →
  Z.pos (digits2_pos mz) = 53 →
  -1074 ≤ e + q ≤ 971 →
  binary_round_aux prec emax s (Z.pos M) e loc_Exact = S754_finite s mz (e + q).
Proof.
  intros Hq HM Hd He.
  pose proof (bounded_53 mz (e + q) Hd He) as Hb.
  destruct q as [|q|q]; [| |lia].
  - rewrite Z.mul_1_r in HM. injection HM as ->. rewrite Z.add_0_r in *.
    by apply binary_round_aux_canonical.
  - apply Zpos_iter_xO_inj in HM. subst M.
    assert (Z.pos (digits2_pos (Pos.iter xO mz q)) = 53 + Z.pos q) as HdM.
    { rewrite digits2_pos_iter_xO, Pos2Z.inj_add. lia. }
    assert (fexp prec emax (53 + Z.pos q + e) = e + Z.pos q) as Hf
      by (unfold fexp, SpecFloat.emin, prec, emax; lia).
    unfold binary_round_aux, shr_fexp. cbn [Zdigits2 shr_record_of_loc].
    rewrite HdM, Hf. replace (e + Z.pos q - e) with (Z.pos q) by lia.
    cbn [shr]. rewrite iter_pos_iter, iter_shr_1_exact.
    cbn [shr_m loc_of_shr_record round_nearest_even Zdigits2 shr_record_of_loc].
    rewrite Hd.
    replace (fexp prec emax (53 + (e + Z.pos q)) - (e + Z.pos q)) with 0
      by (unfold fexp, SpecFloat.emin, prec, emax; lia).
    cbn [shr shr_m].
    replace (e + Z.pos q <=? emax - prec) with true
      by (symmetry; apply Z.leb_le; unfold prec, emax; lia).
    reflexivity.
Qed.

Lemma binary_round_exact (s : bool) (M mz : positive) (e q : Z) :
  0 ≤ q →
  Z.pos M = Z.pos mz * 2 ^ q →
  Z.pos (digits2_pos mz) = 53 →
  -1074 ≤ e + q ≤ 971 →
  binary_round prec emax s M e = S754_finite s mz (e + q).
Proof.
  intros Hq HM Hd He.
  assert (Z.pos (digits2_pos M) = 53 + q) as HdM.
  { destruct q as [|q|q]; [| |lia].
    - rewrite Z.mul_1_r in HM. injection HM as ->. lia.
    - apply Zpos_iter_xO_inj in HM. subst M.
      rewrite digits2_pos_iter_xO, Pos2Z.inj_add. lia. }
  unfold binary_round, shl_align. rewrite HdM.
  replace (fexp prec emax (53 + q + e) - e) with q
    by (unfold fexp, SpecFloat.emin, prec, emax; lia).
  destruct q as [|q|q]; [| |lia]; by apply binary_round_aux_exact.
Qed.

(** The canonical triple of a positive integer below 2^53. *)
Lemma of_Z_pos_canonical (n : positive) :
  Z.pos n < 2 ^ 53 →
  ∃ mz, of_Z (Z.pos n) = S754_finite false mz (Z.pos (digits2_pos n) - 53)
        ∧ Z.pos (digits2_pos mz) = 53
        ∧ Z.pos mz = Z.pos n * 2 ^ (53 - Z.pos (digits2_pos n)).
Proof.
  intros Hn.
  destruct (binary_round_integer false n (digits_le_53 n Hn)) as (mz & Hof & Hb & Hmz).
  exists mz. split; [exact Hof|]. split; [|exact Hmz].
  apply bounded_inv in Hb as (_ & _ & Hb). apply Hb.
  pose proof (Pos2Z.is_pos (digits2_pos n)). lia.
Qed.

Lemma of_Z_neg_canonical (n : positive) :
  Z.pos n < 2 ^ 53 →
  ∃ mz, of_Z (Z.neg n) = S754_finite true mz (Z.pos (digits2_pos n) - 53)
        ∧ Z.pos (digits2_pos mz) = 53
        ∧ Z.pos mz = Z.pos n * 2 ^ (53 - Z.pos (digits2_pos n)).
Proof.
  intros Hn.
  destruct (binary_round_integer true n (digits_le_53 n Hn)) as (mz & Hof & Hb & Hmz).
  exists mz. split; [exact Hof|]. split; [|exact Hmz].
  apply bounded_inv in Hb as (_ & _ & Hb). apply Hb.
  pose proof (Pos2Z.is_pos (digits2_pos n)). lia.
Qed.

Lemma shl_align_value (m : positive) (e ez : Z) :
  ez ≤ e → Z.pos (shl_align m e ez).1 = Z.pos m * 2 ^ (e - ez).
Proof.
  intros Hle. unfold shl_align.
  destruct (ez - e) as [|d|d] eqn:Hd; cbn [fst]; [| lia |].
  - replace (e - ez) with 0 by lia. lia.
  - change (PosDef.Pos.iter xO m d) with (Pos.iter xO m d).
    rewrite Zpos_iter_xO. replace (e - ez) with (Z.pos d) by lia. reflexivity.
Qed.

(** Adding two non-negative integers whose sum is below 2^53 is exact. *)
Lemma add_of_Z (a b : Z) :
  0 ≤ a → 0 ≤ b → a + b < 2 ^ 53 →
  add (of_Z a) (of_Z b) = of_Z (a + b).
Proof.
  intros Ha Hb Hab.
  destruct a as [|a|a]; [|destruct b as [|b|b]|]; try lia.
  - destruct b as [|b|b]; [reflexivity| |lia].
    rewrite Z.add_0_l.
    destruct (of_Z_pos_canonical b ltac:(lia)) as (mb & -> & _). reflexivity.
  - rewrite Z.add_0_r.
    destruct (of_Z_pos_canonical a ltac:(lia)) as (ma & -> & _). reflexivity.
  - destruct (of_Z_pos_canonical a ltac:(lia)) as (ma & Hofa & Hda & Hma).
    destruct (of_Z_pos_canonical b ltac:(lia)) as (mb & Hofb & Hdb & Hmb).
    destruct (of_Z_pos_canonical (a + b) ltac:(lia)) as (mz & Hofz & Hdz & Hmz).
    change (Z.pos a + Z.pos b) with (Z.pos (a + b)). rewrite Hofa, Hofb, Hofz.
    set (da := Z.pos (digits2_pos a)) in *. set (db := Z.pos (digits2_pos b)) in *.
    set (dz := Z.pos (digits2_pos (a + b))) in *.
    pose proof (digits2_pos_bounds a) as Ba. pose proof (digits2_pos_bounds b) as Bb.
    pose proof (digits2_pos_bounds (a + b)) as Bz. fold da in Ba. fold db in Bb. fold dz in Bz.
    assert (0 < da ∧ 0 < db ∧ 0 < dz) as (Pa & Pb & Pz) by (unfold da, db, dz; lia).
    assert (da ≤ dz ∧ db ≤ dz ∧ dz ≤ 53) as (Hadz & Hbdz & Hz53).
    { rewrite Pos2Z.inj_add in Bz. repeat split.
      - assert (2 ^ (da - 1) < 2 ^ dz) as H by lia.
        apply Z.pow_lt_mono_r_iff in H; lia.
      - assert (2 ^ (db - 1) < 2 ^ dz) as H by lia.
        apply Z.pow_lt_mono_r_iff in H; lia.
      - assert (2 ^ (dz - 1) < 2 ^ 53) as H by lia.
        apply Z.pow_lt_mono_r_iff in H; lia. }
    unfold add, SFadd. cbn [cond_Zopp].
    set (ez := Z.min (da - 53) (db - 53)).
    rewrite !shl_align_value by lia.
    assert (Z.pos ma * 2 ^ (da - 53 - ez) + Z.pos mb * 2 ^ (db - 53 - ez)
            = Z.pos mz * 2 ^ (dz - 53 - ez)) as Hsum.
    { rewrite Hma, Hmb, Hmz, <- !Z.mul_assoc, <- !Z.pow_add_r by lia.
      replace (53 - da + (da - 53 - ez)) with (- ez) by lia.
      replace (53 - db + (db - 53 - ez)) with (- ez) by lia.
      replace (53 - dz + (dz - 53 - ez)) with (- ez) by lia.
      rewrite Pos2Z.inj_add. lia. }
    rewrite Hsum.
    assert (0 < Z.pos mz * 2 ^ (dz - 53 - ez)) as Hpos.
    { apply Z.mul_pos_pos; [lia|]. apply Z.pow_pos_nonneg; lia. }
    destruct (Z.pos mz * 2 ^ (dz - 53 - ez)) as [|M|M] eqn:HM; [lia| |lia].
    unfold binary_normalize.
    rewrite (binary_round_exact false M mz ez (dz - 53 - ez)); [f_equal; lia|lia|lia|exact Hdz|lia].
Qed.

(** Multiplying two non-negative integers whose product is below 2^53 is
    exact. *)
Lemma mul_of_Z (a b : Z) :
  0 ≤ a < 2 ^ 53 → 0 ≤ b < 2 ^ 53 → a * b < 2 ^ 53 →
  mul (of_Z a) (of_Z b) = of_Z (a * b).
Proof.
  intros [Ha Ha53] [Hb Hb53] Hab.
  destruct a as [|a|a]; [|destruct b as [|b|b]|]; try lia.
  - destruct b as [|b|b]; [reflexivity| |lia].
    rewrite Z.mul_0_l.
    destruct (of_Z_pos_canonical b Hb53) as (mb & -> & _). reflexivity.
  - rewrite Z.mul_0_r.
    destruct (of_Z_pos_canonical a Ha53) as (ma & -> & _). reflexivity.
  - destruct (of_Z_pos_canonical a Ha53) as (ma & Hofa & Hda & Hma).
    destruct (of_Z_pos_canonical b Hb53) as (mb & Hofb & Hdb & Hmb).
    change (Z.pos a * Z.pos b) with (Z.pos (a * b)) in *.
    destruct (of_Z_pos_canonical (a * b) Hab) as (mz & Hofz & Hdz & Hmz).
    rewrite Hofa, Hofb, Hofz.
    set (da := Z.pos (digits2_pos a)) in *. set (db := Z.pos (digits2_pos b)) in *.
    set (dz := Z.pos (digits2_pos (a * b))) in *.
    pose proof (digits2_pos_bounds a) as Ba. pose proof (digits2_pos_bounds b) as Bb.
    pose proof (digits2_pos_bounds (a * b)) as Bz. fold da in Ba. fold db in Bb. fold dz in Bz.
    assert (0 < da ∧ 0 < db ∧ 0 < dz) as (Pa & Pb & Pz) by (unfold da, db, dz; lia).
    assert (da + db - 1 ≤ dz ≤ 53) as Hdz53.
    { rewrite Pos2Z.inj_mul in Bz. split.
      - assert (2 ^ (da - 1 + (db - 1)) < 2 ^ dz) as H.
        { rewrite Z.pow_add_r by lia. nia. }
        apply Z.pow_lt_mono_r_iff in H; lia.
      - assert (2 ^ (dz - 1) < 2 ^ 53) as H by lia.
        apply Z.pow_lt_mono_r_iff in H; lia. }
    unfold mul, SFmul. cbn [xorb].
    rewrite (binary_round_aux_exact false (ma * mb) mz (da - 53 + (db - 53))
               (53 - da - db + dz)); [f_equal; lia|lia| |exact Hdz|lia].
    rewrite Pos2Z.inj_mul, Hma, Hmb, Hmz, Pos2Z.inj_mul.
    transitivity (Z.pos a * Z.pos b * (2 ^ (53 - da) * 2 ^ (53 - db))); [ring|].
    transitivity (Z.pos a * Z.pos b * (2 ^ (53 - dz) * 2 ^ (53 - da - db + dz))); [|ring].
    rewrite <- !Z.pow_add_r by lia. do 2 f_equal. lia.
Qed.

(** ** Sequences of saves: skills, counters and streak *)

(** One save of a schedule, successful or not, seen from the stored
    document. *)
Lemma save_at_cases (uid : string) (t : Z) (sd : SessionData) (d : UserDoc) (w : World) :
  currentUser w = Some uid →
  userDoc w = Some d →
  users w !! uid = Some d →
  ∃ d',
    currentUser (save_at t sd w) = Some uid
    ∧ userDoc (save_at t sd w) = Some d'
    ∧ users (save_at t sd w) !! uid = Some d'
    ∧ session_count uid (save_at t sd w) = session_count uid w + 1
    ∧ match skillsGained sd with
      | Some g =>
          progress d' = savedProgress d d sd (set_clocks t w)
          ∧ updateSkills (skills d) (Some g) (add (totalSessions (progress d)) (of_Z 1))
            = inr (skills d')
      | None => d' = d
      end.
Proof.
  intros Hu Hd Hs.
  assert (∀ w', sessions w'
                = <[uid := default [] (sessions (set_clocks t w) !! uid)
                           ++ [session_record sd (set_clocks t w)]]> (sessions (set_clocks t w)) →
                session_count uid w' = session_count uid w + 1) as Hcount.
  { intros w' Hw'. unfold session_count. rewrite Hw', lookup_insert_eq.
    cbn [default from_option Datatypes.id set_clocks sessions]. unfold Datatypes.id.
    rewrite length_app. cbn [length]. lia. }
  destruct (skillsGained sd) as [g|] eqn:Hg.
  - destruct (save_at_step uid t sd g d w Hu Hd Hs Hg) as (d' & Hu' & Hd' & Hs' & Hp & Hsk).
    destruct (saveSessionResults_frame (set_clocks t w) uid d d sd g Hu Hd Hs Hg)
      as (w' & Hw' & _ & _ & _ & _ & Hsess & _).
    exists d'. repeat split; try done.
    apply Hcount. unfold save_at. by rewrite Hw'.
  - destruct (saveSessionResults_absent_frame (set_clocks t w) uid d sd Hu Hd Hg)
      as (r & w' & Hsave & _ & Hus & Hud & Hsess).
    destruct (in_sync_save uid sd (set_clocks t w)) as ((Hu' & _) & _).
    { split; [exact Hu|]. exists d. done. }
    unfold save_at. rewrite Hsave in *. cbn [snd] in *.
    exists d. rewrite Hus, Hud. repeat split; try done.
    by apply Hcount.
Qed.

Lemma updateSkills_in_range (currentSkills gained out : gmap string value)
    (sessionCount : number) :
  skills_in_range currentSkills →
  skills_in_range gained →
  updateSkills currentSkills (Some gained) sessionCount = inr out →
  skills_in_range out ∧ ∀ name, name ∈ skill_names ↔ is_Some (out !! name).
Proof.
  intros Hcur Hgain Hout.
  assert (∀ name, ∃ r, 0 ≤ r ≤ 100
            ∧ blend (prop currentSkills name) (prop gained name) = of_Z r) as Hblend.
  { intros name.
    destruct (number_or_in_range 50 currentSkills name ltac:(lia) Hcur) as (c & Hc & Hce).
    destruct (number_or_in_range 0 gained name ltac:(lia) Hgain) as (g & Hg & Hge).
    destruct (blend_grid c g Hc Hg) as (r & Hr & Hb).
    exists r. split; [exact Hr|]. rewrite <- Hb. unfold blend.
    by rewrite !getCur_number_or, !getVal_number_or, Hce, Hge. }
  cbn in Hout. injection Hout as <-. split.
  - intros k v Hk.
    repeat (apply lookup_insert_Some in Hk as [[<- <-]|[_ Hk]];
            [match goal with
             | |- ∃ n, _ ∧ VNum (blend (prop _ ?name) _) = _ =>
                 destruct (Hblend name) as (r & Hr & ->); by exists r
             end|]).
    by apply lookup_empty_Some in Hk.
  - intros name. unfold skill_names. split.
    + intros Hin.
      repeat (apply elem_of_cons in Hin as [->|Hin]; [by simplify_map_eq|]).
      by apply elem_of_nil in Hin.
    + intros [v Hk].
      repeat (apply lookup_insert_Some in Hk as [[<- _]|[_ Hk]];
              [set_solver|]).
      by apply lookup_empty_Some in Hk.
Qed.

(** X15. If the stored skills are integers of [0,100] and every session
    brings gains that are integers of [0,100], the stored skills are
    integers of [0,100] after any sequence of saves, at any times, failed
    saves included. *)
Theorem X15_saved_skills_stay_in_range (uid : string) (schedule : list (Z * SessionData)) :
  ∀ (w : World) (d : UserDoc),
    currentUser w = Some uid →
    userDoc w = Some d →
    users w !! uid = Some d →
    skills_in_range (skills d) →
    Forall (λ ts, gains_in_range ts.2) schedule →
    ∃ d', users (save_schedule schedule w) !! uid = Some d'
          ∧ skills_in_range (skills d').
Proof.
  induction schedule as [|[t sd] rest IH]; intros w d Hu Hd Hs Hr Hall.
  - exists d. done.
  - apply Forall_cons in Hall as [Hsd Hrest]. cbn [snd] in Hsd.
    destruct (save_at_cases uid t sd d w Hu Hd Hs) as (d1 & Hu1 & Hd1 & Hs1 & _ & Hcase).
    cbn [save_schedule foldl fst snd].
    apply (IH (save_at t sd w) d1 Hu1 Hd1 Hs1); [|exact Hrest].
    destruct (skillsGained sd) as [g|] eqn:Hg.
    + destruct Hcase as [_ Hsk].
      exact (proj1 (updateSkills_in_range _ _ _ _ Hr (Hsd g Hg) Hsk)).
    + by subst d1.
Qed.

Lemma X15_saved_skills_stay_in_range_witness :
  ∃ d', users (save_schedule [(hours 1, scored 80); (hours 30, unscored_session)]
                             (logged_in "u" blank_doc 0)) !! "u" = Some d'
        ∧ skills_in_range (skills d').
Proof.
  apply (X15_saved_skills_stay_in_range "u" [(hours 1, scored 80); (hours 30, unscored_session)]
           (logged_in "u" blank_doc 0) blank_doc); try reflexivity.
  - intros k v Hk. vm_compute in Hk. discriminate.
  - apply List.Forall_cons; [|apply List.Forall_cons; [|apply List.Forall_nil]]; intros g Hg.
    + injection Hg as <-. intros k v Hk. vm_compute in Hk. discriminate.
    + discriminate.
Defined.





(** X17. [totalTimeSpent] accumulates the durations exactly: after a
    sequence of successful saves whose durations are whole numbers of
    seconds it is the old total plus their sum. *)
Theorem X17_time_spent_is_the_sum_of_durations
    (uid : string) (schedule : list (Z * SessionData)) :
  ∀ (w : World) (d : UserDoc) (total : Z) (seconds : list Z),
    currentUser w = Some uid →
    userDoc w = Some d →
    users w !! uid = Some d →
    totalTimeSpent (progress d) = of_Z total →
    0 ≤ total →
    Forall2 whole_seconds schedule seconds →
    total + foldr Z.add 0 seconds < 2 ^ 53 →
    ∃ d',
      users (save_schedule schedule w) !! uid = Some d'
      ∧ totalTimeSpent (progress d') = of_Z (total + foldr Z.add 0 seconds).
Proof.
  induction schedule as [|[t sd] rest IH];
    intros w d total seconds Hu Hd Hs Ht Ht0 Hall Hb.
  - apply Forall2_nil_inv_l in Hall as ->. exists d. cbn. by rewrite Z.add_0_r.
  - apply Forall2_cons_inv_l in Hall as (s & seconds' & (Hs0 & Hdur & [g Hg]) & Hrest & ->).
    cbn [snd] in Hdur, Hg. cbn [foldr] in Hb |- *.
    assert (0 ≤ foldr Z.add 0 seconds') as Hsum.
    { clear -Hrest. induction Hrest as [|x y l l' (Hy & _) _ IH']; cbn; lia. }
    destruct (save_at_cases uid t sd d w Hu Hd Hs) as (d1 & Hu1 & Hd1 & Hs1 & _ & Hcase).
    rewrite Hg in Hcase. destruct Hcase as [Hp _].
    assert (totalTimeSpent (progress d1) = of_Z (total + s)) as Ht1.
    { rewrite Hp. unfold savedProgress. cbn [totalTimeSpent]. rewrite Ht, Hdur.
      apply add_of_Z; lia. }
    destruct (IH (save_at t sd w) d1 (total + s) seconds' Hu1 Hd1 Hs1 Ht1
                 ltac:(lia) Hrest ltac:(lia)) as (d' & Hst & Ht').
    exists d'. cbn [save_schedule foldl fst snd]. split; [exact Hst|].
    by rewrite Ht', Z.add_assoc.
Qed.

Lemma X17_time_spent_is_the_sum_of_durations_witness :
  ∃ d',
    users (save_schedule [(hours 1, scored 80); (hours 30, scored 60)]
                         (logged_in "u" blank_doc 0)) !! "u" = Some d'
    ∧ totalTimeSpent (progress d') = of_Z 1200.
Proof.
  apply (X17_time_spent_is_the_sum_of_durations "u"
           [(hours 1, scored 80); (hours 30, scored 60)]
           (logged_in "u" blank_doc 0) blank_doc 0 [600; 600]);
    try reflexivity; try lia.
  repeat (apply List.Forall2_cons; [repeat split; try lia; by eexists|]).
  apply List.Forall2_nil.
Defined.



(** ** The authentication listener *)

(** X19. When the authentication listener is told that [uid] signed in,
    the manager ends up with [uid] as current user and a snapshot equal to
    the stored document, which is created only if it was missing.  When it
    is told of a sign-out, a later save throws 'User not logged in' and
    changes nothing; the stored documents and sessions survive the
    sign-out. *)
Theorem X19_auth_listener (uid : string) (sessionData : SessionData) (w : World) :
  in_sync uid (onAuthStateChanged (Some uid) w).2
  ∧ (is_Some (users w !! uid) → users (onAuthStateChanged (Some uid) w).2 = users w)
  ∧ saveSessionResults sessionData (onAuthStateChanged None w).2
    = (inl (Error "User not logged in"), (onAuthStateChanged None w).2)
  ∧ users (onAuthStateChanged None w).2 = users w
  ∧ sessions (onAuthStateChanged None w).2 = sessions w.
Proof.
  split; [|split; [|split; [|done]]].
  - unfold onAuthStateChanged, loadUserData, mbind, M_bind, get, modify, createUserDocument.
    cbn. destruct (users w !! uid) as [d|] eqn:Hs; cbn.
    + split; [reflexivity|]. exists d. done.
    + rewrite lookup_insert_eq. cbn. split; [reflexivity|].
      exists initialData. cbn. by rewrite lookup_insert_eq.
  - intros [d Hs].
    unfold onAuthStateChanged, loadUserData, mbind, M_bind, get, modify. cbn.
    by rewrite Hs.
  - by apply saveSessionResults_not_logged_in.
Qed.

(** ** The quotient of the running average *)

(** What the location computed by the division says about the remainder. *)
Lemma new_location_spec (m2 r : Z) :
  0 < m2 → 0 ≤ r < m2 →
  match new_location m2 r with
  | loc_Exact => r = 0
  | loc_Inexact Lt => 0 < r ∧ 2 * r < m2
  | loc_Inexact Eq => 2 * r = m2
  | loc_Inexact Gt => m2 < 2 * r
  end.
Proof.
  intros Hm Hr. unfold new_location, new_location_even, new_location_odd.
  change IntDef.Z.even with Z.even.
  destruct (Z.even m2) eqn:He; destruct (Z.eqb_spec r 0) as [|Hne]; try done.
  - destruct (Z.compare_spec (2 * r) m2); lia.
  - rewrite Zeven_mod in He. apply Z.eqb_neq in He.
    pose proof (Z.div_mod m2 2 ltac:(lia)) as Hdm.
    pose proof (Z.mod_pos_bound m2 2 ltac:(lia)) as Hmb.
    destruct (Z.compare_spec (2 * r + 1) m2); cbn; lia.
Qed.

Lemma loc_of_shr_record_of_loc (m : Z) (l : location) :
  loc_of_shr_record (shr_record_of_loc m l) = l
  ∧ shr_m (shr_record_of_loc m l) = m.
Proof. by destruct l as [|[| |]]. Qed.

(** The second half of [binary_round_aux], once the first shift is known
    and the rounded significand has 53 bits or is 2^53. *)
Lemma binary_round_aux_finish (s : bool) (q e e1 : Z) (loc : location)
    (mrs : shr_record) :
  shr_fexp prec emax q e loc = (mrs, e1) →
  2 ^ 52 ≤ round_nearest_even (shr_m mrs) (loc_of_shr_record mrs) ≤ 2 ^ 53 →
  -1074 ≤ e1 ≤ 970 →
  ∃ (m : positive) (k : Z),
    binary_round_aux prec emax s q e loc = S754_finite s m (e1 + k)
    ∧ 0 ≤ k ≤ 1
    ∧ Z.pos (digits2_pos m) = 53
    ∧ Z.pos m * 2 ^ k = round_nearest_even (shr_m mrs) (loc_of_shr_record mrs).
Proof.
  intros Hshr Hmr He1. unfold binary_round_aux. rewrite Hshr.
  set (mr := round_nearest_even (shr_m mrs) (loc_of_shr_record mrs)) in *.
  destruct mr as [|p|p] eqn:Hp; [change (2 ^ 52) with 4503599627370496 in Hmr; lia| |lia].
  destruct (Z.eq_dec (Z.pos p) (2 ^ 53)) as [Heq|Hne].
  - exists 4503599627370496%positive, 1.
    change (2 ^ 53) with (Z.pos 9007199254740992) in Heq. injection Heq as ->.
    unfold shr_fexp. change (Zdigits2 (Z.pos 9007199254740992)) with 54.
    cbn [shr_record_of_loc].
    replace (fexp prec emax (54 + e1) - e1) with 1
      by (unfold fexp, SpecFloat.emin, prec, emax; lia).
    cbn [shr SpecFloat.iter_pos shr_1 orb shr_m].
    replace (e1 + 1 <=? emax - prec) with true
      by (symmetry; apply Z.leb_le; unfold prec, emax; lia).
    repeat split; lia.
  - assert (Z.pos (digits2_pos p) = 53) as Hd.
    { apply digits2_pos_unique. change (53 - 1) with 52. lia. }
    exists p, 0. unfold shr_fexp. cbn [Zdigits2 shr_record_of_loc]. rewrite Hd.
    replace (fexp prec emax (53 + e1) - e1) with 0
      by (unfold fexp, SpecFloat.emin, prec, emax; lia).
    cbn [shr shr_m].
    replace (e1 <=? emax - prec) with true
      by (symmetry; apply Z.leb_le; unfold prec, emax; lia).
    rewrite Z.add_0_r. repeat split; lia.
Qed.

(** The first shift and the rounding of a quotient of 53 or 54 bits: the
    rounded significand is within half a unit of the exact quotient. *)
Lemma div_first_round (q r m2 e : Z) :
  2 ^ 52 ≤ q < 2 ^ 54 → 0 < m2 → 0 ≤ r < m2 → -1074 ≤ e ≤ 969 →
  ∃ (mrs : shr_record) (j : Z),
    shr_fexp prec emax q e (new_location m2 r) = (mrs, e + j)
    ∧ 0 ≤ j ≤ 1
    ∧ 2 ^ 52 ≤ round_nearest_even (shr_m mrs) (loc_of_shr_record mrs) ≤ 2 ^ 53
    ∧ 2 * Z.abs (round_nearest_even (shr_m mrs) (loc_of_shr_record mrs) * 2 ^ j * m2
                 - (m2 * q + r)) ≤ m2 * 2 ^ j.
Proof.
  intros Hq Hm Hr He.
  pose proof (new_location_spec m2 r Hm Hr) as Hloc.
  set (loc := new_location m2 r) in *.
  change (2 ^ 52) with 4503599627370496 in *.
  change (2 ^ 54) with 18014398509481984 in *.
  change (2 ^ 53) with 9007199254740992 in *.
  destruct q as [|qp|qp]; [lia| |lia].
  destruct (Z.lt_ge_cases (Z.pos qp) 9007199254740992) as [Hlt|Hge].
  - assert (Z.pos (digits2_pos qp) = 53) as Hd.
    { apply digits2_pos_unique. change (2 ^ (53 - 1)) with 4503599627370496.
      change (2 ^ 53) with 9007199254740992. lia. }
    exists (shr_record_of_loc (Z.pos qp) loc), 0.
    destruct (loc_of_shr_record_of_loc (Z.pos qp) loc) as [-> ->].
    split; [|split; [lia|]].
    { unfold shr_fexp. cbn [Zdigits2]. rewrite Hd.
      replace (fexp prec emax (53 + e) - e) with 0
        by (unfold fexp, SpecFloat.emin, prec, emax; lia).
      cbn [shr]. by rewrite Z.add_0_r. }
    change (2 ^ 0) with 1. rewrite !Z.mul_1_r.
    destruct loc as [|[| |]]; cbn [round_nearest_even];
      try destruct (IntDef.Z.even (Z.pos qp)); split; lia.
  - assert (Z.pos (digits2_pos qp) = 54) as Hd.
    { apply digits2_pos_unique. change (2 ^ (54 - 1)) with 9007199254740992.
      change (2 ^ 54) with 18014398509481984. lia. }
    exists (shr_1 (shr_record_of_loc (Z.pos qp) loc)), 1.
    split; [|split; [lia|]].
    { unfold shr_fexp. cbn [Zdigits2]. rewrite Hd.
      replace (fexp prec emax (54 + e) - e) with 1
        by (unfold fexp, SpecFloat.emin, prec, emax; lia).
      reflexivity. }
    change (2 ^ 1) with 2.
    destruct qp as [p|p|]; [| |lia];
      destruct loc as [|[| |]];
      cbn [shr_record_of_loc shr_1 orb shr_m loc_of_shr_record round_nearest_even];
      try destruct (IntDef.Z.even (Z.pos p)); split; lia.
Qed.

(** Rounding the quotient [q] with remainder [r] of a division by [m2]:
    the result is a canonical triple within half a unit in the last place
    of the exact quotient [(m2 * q + r) / m2]. *)
Lemma div_round_spec (s : bool) (q r m2 e : Z) :
  2 ^ 52 ≤ q < 2 ^ 54 → 0 < m2 → 0 ≤ r < m2 → -1074 ≤ e ≤ 969 →
  ∃ (m : positive) (k : Z),
    binary_round_aux prec emax s q e (new_location m2 r) = S754_finite s m (e + k)
    ∧ 0 ≤ k ≤ 2
    ∧ Z.pos (digits2_pos m) = 53
    ∧ 2 * Z.abs (Z.pos m * 2 ^ k * m2 - (m2 * q + r)) ≤ m2 * 2 ^ k.
Proof.
  intros Hq Hm Hr He.
  destruct (div_first_round q r m2 e Hq Hm Hr He) as (mrs & j & Hshr & Hj & Hmr & Herr).
  destruct (binary_round_aux_finish s q e (e + j) _ mrs Hshr Hmr ltac:(lia))
    as (m & k & Heq & Hk & Hd & Hval).
  exists m, (j + k). rewrite Heq, Z.add_assoc. split; [reflexivity|].
  split; [lia|]. split; [exact Hd|].
  rewrite <- Hval in Herr.
  rewrite Z.pow_add_r by lia.
  assert (0 < 2 ^ k) as Hpk by (apply Z.pow_pos_nonneg; lia).
  assert (0 < 2 ^ j) as Hpj by (apply Z.pow_pos_nonneg; lia).
  replace (Z.pos m * (2 ^ j * 2 ^ k) * m2) with (Z.pos m * 2 ^ k * 2 ^ j * m2) by ring.
  nia.
Qed.

(** The quotient of two non-zero integers below 2^53 in magnitude, the
    divisor positive: a canonical triple within half a unit in the last
    place of the exact quotient [T / D]. *)
Lemma div_of_Z_spec (s : bool) (T D : positive) :
  Z.pos T < 2 ^ 53 → Z.pos D < 2 ^ 53 →
  let e' := Z.pos (digits2_pos T) - Z.pos (digits2_pos D) - 53 in
  ∃ (m : positive) (k : Z),
    div (of_Z (if s then Z.neg T else Z.pos T)) (of_Z (Z.pos D))
    = S754_finite s m (e' + k)
    ∧ 0 ≤ k ≤ 2
    ∧ Z.pos (digits2_pos m) = 53
    ∧ 2 * Z.abs (Z.pos m * 2 ^ k * Z.pos D - Z.pos T * 2 ^ (- e')) ≤ Z.pos D * 2 ^ k.
Proof.
  intros HT HD e'.
  assert (∃ m1, of_Z (if s then Z.neg T else Z.pos T)
                = S754_finite s m1 (Z.pos (digits2_pos T) - 53)
                ∧ Z.pos (digits2_pos m1) = 53
                ∧ Z.pos m1 = Z.pos T * 2 ^ (53 - Z.pos (digits2_pos T)))
    as (m1 & Hof1 & Hd1 & Hm1).
  { destruct s; [by apply of_Z_neg_canonical | by apply of_Z_pos_canonical]. }
  destruct (of_Z_pos_canonical D HD) as (m2 & Hof2 & Hd2 & Hm2).
  rewrite Hof1, Hof2.
  set (dT := Z.pos (digits2_pos T)) in *. set (dD := Z.pos (digits2_pos D)) in *.
  assert (0 < dT ≤ 53 ∧ 0 < dD ≤ 53) as (HdT & HdD).
  { pose proof (digits_le_53 T HT). pose proof (digits_le_53 D HD). unfold dT, dD. lia. }
  pose proof (digits2_pos_bounds m1) as B1. pose proof (digits2_pos_bounds m2) as B2.
  rewrite Hd1 in B1. rewrite Hd2 in B2.
  change (2 ^ (53 - 1)) with 4503599627370496 in *.
  change (2 ^ 53) with 9007199254740992 in *.
  unfold div, SFdiv, SFdiv_core_binary. cbn [Zdigits2]. rewrite xorb_false_r, Hd1, Hd2.
  replace (IntDef.Z.min (fexp prec emax (53 + (dT - 53) - (53 + (dD - 53))))
                        (dT - 53 - (dD - 53))) with e'
    by (unfold fexp, SpecFloat.emin, prec, emax, e'; change IntDef.Z.min with Z.min; lia).
  replace (dT - 53 - (dD - 53) - e') with 53 by (unfold e'; lia).
  change (IntDef.Z.shiftl (Z.pos m1) 53) with (Z.shiftl (Z.pos m1) 53).
  rewrite Z.shiftl_mul_pow2 by lia. change (2 ^ 53) with 9007199254740992.
  change IntDef.Z.div_eucl with Z.div_eucl.
  pose proof (Z.div_eucl_eq (Z.pos m1 * 9007199254740992) (Z.pos m2) ltac:(lia)) as Heq.
  pose proof (Z.mod_pos_bound (Z.pos m1 * 9007199254740992) (Z.pos m2) ltac:(lia)) as Hmod.
  unfold Z.modulo in Hmod.
  destruct (Z.div_eucl (Z.pos m1 * 9007199254740992) (Z.pos m2)) as [q r].
  assert (4503599627370496 ≤ q < 18014398509481984) as Hq by nia.
  destruct (div_round_spec s q r (Z.pos m2) e' Hq ltac:(lia) Hmod ltac:(unfold e'; lia))
    as (m & k & Hres & Hk & Hd & Herr).
  exists m, k. split; [exact Hres|]. split; [exact Hk|]. split; [exact Hd|].
  rewrite <- Heq in Herr.
  assert (0 < 2 ^ (53 - dD)) as Hc by (apply Z.pow_pos_nonneg; lia).
  assert (Z.pos m1 * 9007199254740992 = Z.pos T * 2 ^ (- e') * 2 ^ (53 - dD)) as HP.
  { rewrite Hm1. change 9007199254740992 with (2 ^ 53).
    rewrite <- !Z.mul_assoc, <- !Z.pow_add_r by (unfold e'; lia).
    do 2 f_equal. unfold e'. lia. }
  rewrite HP, Hm2 in Herr.
  replace (Z.pos m * 2 ^ k * (Z.pos D * 2 ^ (53 - dD)) - Z.pos T * 2 ^ (- e') * 2 ^ (53 - dD))
    with ((Z.pos m * 2 ^ k * Z.pos D - Z.pos T * 2 ^ (- e')) * 2 ^ (53 - dD)) in Herr by ring.
  rewrite Z.abs_mul, (Z.abs_eq (2 ^ (53 - dD))) in Herr by lia.
  nia.
Qed.

Lemma digits2_pos_mono_bound (T D : positive) (j : Z) :
  0 ≤ j → Z.pos T < Z.pos D * 2 ^ j →
  Z.pos (digits2_pos T) ≤ Z.pos (digits2_pos D) + j.
Proof.
  intros Hj Hlt.
  pose proof (digits2_pos_bounds T) as [HT _]. pose proof (digits2_pos_bounds D) as [_ HD].
  assert (0 < 2 ^ j) by (apply Z.pow_pos_nonneg; lia).
  assert (2 ^ (Z.pos (digits2_pos T) - 1) < 2 ^ (Z.pos (digits2_pos D) + j)) as H1.
  { rewrite Z.pow_add_r by lia. nia. }
  apply Z.pow_lt_mono_r_iff in H1; lia.
Qed.

(** A value on the grid of step [1/P] that is within [1/(2P)] of [T / D]
    rounds half up to the same integer as [T / D], when [D < P]. *)
Lemma nearest_transfer (m T D P h N : Z) :
  0 < D < P → P = 2 * h →
  2 * Z.abs (m * D - T * P) ≤ D →
  2 * D * N ≤ 2 * T + D < 2 * D * (N + 1) →
  2 * P * N ≤ 2 * m + P < 2 * P * (N + 1).
Proof.
  intros HD Heven Herr [Hlo Hhi]. split.
  - destruct (Z.le_gt_cases (2 * P * N) (2 * m + P)) as [|Hlow]; [done|exfalso].
    assert (2 * m + P ≤ 2 * P * N - 2) as Hgrid by lia.
    pose proof (Z.mul_le_mono_nonneg_r _ _ D ltac:(lia) Hgrid) as H1.
    pose proof (Z.mul_le_mono_nonneg_r _ _ P ltac:(lia) Hlo) as H2.
    lia.
  - destruct (Z.lt_ge_cases (2 * m + P) (2 * P * (N + 1))) as [|Hup]; [done|exfalso].
    pose proof (Z.mul_le_mono_nonneg_r _ _ D ltac:(lia) Hup) as H1.
    assert (2 * T + D ≤ 2 * D * (N + 1) - 1) as Hhi' by lia.
    pose proof (Z.mul_le_mono_nonneg_r _ _ P ltac:(lia) Hhi') as H2.
    lia.
Qed.

(** [Math.round(T / D)] on Numbers is the exact quotient rounded half up,
    for integers with [0 ≤ T ≤ 100 * D] and [D] below 2^44. *)
Lemma Math_round_div_of_Z (T D : Z) :
  0 ≤ T ≤ 100 * D → 0 < D < 2 ^ 44 →
  Math_round (div (of_Z T) (of_Z D)) = of_Z ((2 * T + D) / (2 * D))
  ∧ 0 ≤ (2 * T + D) / (2 * D) ≤ 100.
Proof.
  intros HT HD.
  change (2 ^ 44) with 17592186044416 in HD.
  set (N := (2 * T + D) / (2 * D)).
  pose proof (Z.div_mod (2 * T + D) (2 * D) ltac:(lia)) as Hdm.
  pose proof (Z.mod_pos_bound (2 * T + D) (2 * D) ltac:(lia)) as Hmb.
  fold N in Hdm.
  assert (0 ≤ N ≤ 100) as HN by nia.
  split; [|exact HN].
  destruct D as [|D|D]; [lia| |lia].
  destruct T as [|T|T]; [| |lia].
  - destruct (of_Z_pos_canonical D ltac:(change (2 ^ 53) with 9007199254740992; lia))
      as (m2 & -> & _).
    assert (N = 0) as -> by nia. reflexivity.
  - destruct (div_of_Z_spec false T D) as (m & k & -> & Hk & Hd & Herr);
      [change (2 ^ 53) with 9007199254740992; lia..|].
    set (e' := Z.pos (digits2_pos T) - Z.pos (digits2_pos D) - 53) in *.
    pose proof (digits2_pos_mono_bound T D 7 ltac:(lia)
                  ltac:(change (2 ^ 7) with 128; lia)) as Hdig.
    pose proof (Pos2Z.is_pos (digits2_pos T)). pose proof (digits_le_53 D
      ltac:(change (2 ^ 53) with 9007199254740992; lia)).
    set (e := e' + k).
    assert (-105 ≤ e ≤ -44) as He by (unfold e, e'; lia).
    unfold Math_round.
    rewrite (bounded_53 m e Hd) by lia. cbn [negb].
    replace (0 <=? e) with false by (symmetry; apply Z.leb_gt; lia).
    set (P := 2 ^ (- e)).
    assert (2 ^ (1 - e) = 2 * P) as ->.
    { unfold P. replace (1 - e) with (Z.succ (- e)) by lia. by rewrite Z.pow_succ_r by lia. }
    assert (17592186044416 ≤ P ∧ ∃ h, P = 2 * h) as (HP & h & Heven).
    { unfold P. split.
      - change 17592186044416 with (2 ^ 44). apply Z.pow_le_mono_r; lia.
      - exists (2 ^ (- e - 1)). rewrite <- Z.pow_succ_r by lia. f_equal. lia. }
    assert (2 ^ (- e') = P * 2 ^ k) as HP'.
    { unfold P. rewrite <- Z.pow_add_r by lia. f_equal. unfold e. lia. }
    rewrite HP' in Herr.
    assert (0 < 2 ^ k) as Hpk by (apply Z.pow_pos_nonneg; lia).
    assert (2 * Z.abs (Z.pos m * Z.pos D - Z.pos T * P) ≤ Z.pos D) as Herr'.
    { replace (Z.pos m * 2 ^ k * Z.pos D - Z.pos T * (P * 2 ^ k))
        with ((Z.pos m * Z.pos D - Z.pos T * P) * 2 ^ k) in Herr by ring.
      rewrite Z.abs_mul, (Z.abs_eq (2 ^ k)) in Herr by lia. nia. }
    assert ((2 * Z.pos m + P) / (2 * P) = N) as ->.
    { pose proof (nearest_transfer (Z.pos m) (Z.pos T) (Z.pos D) P h N
                    ltac:(lia) Heven Herr' ltac:(lia)) as Hgrid.
      symmetry. apply (Z.div_unique _ _ _ (2 * Z.pos m + P - 2 * P * N)); [left|]; lia. }
    destruct (Z.eqb_spec N 0) as [->|]; reflexivity.
Qed.

(** The expression of [newAverageScore] on integers of the expected
    ranges: every operation but the division is exact, and the rounded
    quotient is the exact quotient rounded half up. *)
Lemma newAverageScore_exact (a n s : Z) :
  0 ≤ a ≤ 100 → 0 ≤ s ≤ 100 → 0 ≤ n < 2 ^ 44 - 1 →
  Math_round (div (add (mul (of_Z a) (of_Z n)) (of_Z s)) (add (of_Z n) (of_Z 1)))
  = of_Z (next_average a n s)
  ∧ 0 ≤ next_average a n s ≤ 100.
Proof.
  intros Ha Hs Hn.
  change (2 ^ 44) with 17592186044416 in Hn.
  assert (2 ^ 53 = 9007199254740992) as H53 by reflexivity.
  rewrite mul_of_Z by (rewrite ?H53; nia).
  rewrite !add_of_Z by (rewrite ?H53; nia).
  apply Math_round_div_of_Z; [nia|].
  change (2 ^ 44) with 17592186044416. lia.
Qed.

(** X20. With a stored average [a] and a score [s] that are integers of
    [0,100] and a session count [n] below 2^44 - 1, a successful save
    stores exactly the integer nearest to [(a * n + s) / (n + 1)], halves
    upwards: the binary64 evaluation of
    [Math.round((averageScore * totalSessions + score) / newTotalSessions)]
    commits no rounding error, and the result is an integer of [0,100]. *)
Theorem X20_saved_average_is_exactly_rounded
    (w : World) (uid : string) (doc sdoc : UserDoc) (sd : SessionData)
    (g : gmap string value) (a n s : Z) :
  currentUser w = Some uid →
  userDoc w = Some doc →
  users w !! uid = Some sdoc →
  skillsGained sd = Some g →
  averageScore (progress doc) = of_Z a →
  totalSessions (progress doc) = of_Z n →
  score sd = of_Z s →
  0 ≤ a ≤ 100 → 0 ≤ s ≤ 100 → 0 ≤ n < 2 ^ 44 - 1 →
  ∃ w' d' sessionId,
    saveSessionResults sd w = (inr (Saved sessionId), w')
    ∧ users w' !! uid = Some d'
    ∧ averageScore (progress d') = of_Z (next_average a n s)
    ∧ 0 ≤ next_average a n s ≤ 100.
Proof.
  intros Hu Hd Hst Hg Hav Hn Hsc Ha Hs Hnr.
  destruct (saveSessionResults_present w uid doc sdoc sd g Hu Hd Hst Hg)
    as (w' & d' & newSkills & Hsave & _ & Hst' & _ & Hp & _).
  destruct (newAverageScore_exact a n s Ha Hs Hnr) as [Hexact Hrange].
  exists w', d', (length (default [] (sessions w !! uid))).
  split; [exact Hsave|]. split; [exact Hst'|]. split; [|exact Hrange].
  rewrite Hp. unfold savedProgress. cbn [averageScore]. by rewrite Hav, Hn, Hsc.
Qed.

Lemma X20_saved_average_is_exactly_rounded_witness :
  ∃ w' d' sessionId,
    saveSessionResults (scored 60) (logged_in "u" one_session_doc (hours 1))
    = (inr (Saved sessionId), w')
    ∧ users w' !! "u" = Some d'
    ∧ averageScore (progress d') = of_Z 70.
Proof.
  destruct (X20_saved_average_is_exactly_rounded
              (logged_in "u" one_session_doc (hours 1)) "u" one_session_doc one_session_doc
              (scored 60) ∅ 80 1 60)
    as (w' & d' & sessionId & Hsave & Hst & Hav & _);
    try reflexivity; try lia.
  exists w', d', sessionId. split; [exact Hsave|]. split; [exact Hst|exact Hav].
Defined.

(** X21. If the stored average is an integer of [0,100] and every session
    has a score that is an integer of [0,100], the stored average is an
    integer of [0,100] after any sequence of saves, failed saves included,
    as long as fewer than 2^44 sessions are counted. *)
Theorem X21_saved_average_stays_in_range
    (uid : string) (schedule : list (Z * SessionData)) :
  ∀ (w : World) (d : UserDoc) (a n : Z),
    currentUser w = Some uid →
    userDoc w = Some d →
    users w !! uid = Some d →
    averageScore (progress d) = of_Z a →
    totalSessions (progress d) = of_Z n →
    0 ≤ a ≤ 100 → 0 ≤ n →
    n + Z.of_nat (length schedule) < 2 ^ 44 →
    Forall (λ ts, score_in_range ts.2) schedule →
    ∃ d' a',
      users (save_schedule schedule w) !! uid = Some d'
      ∧ averageScore (progress d') = of_Z a'
      ∧ 0 ≤ a' ≤ 100.
Proof.
  induction schedule as [|[t sd] rest IH]; intros w d a n Hu Hd Hs Hav Hn Ha Hn0 Hb Hall.
  - exists d, a. done.
  - apply Forall_cons in Hall as [(s & Hs100 & Hsc) Hrest]. cbn [snd] in Hsc.
    cbn [length] in Hb. change (2 ^ 44) with 17592186044416 in Hb.
    destruct (save_at_cases uid t sd d w Hu Hd Hs) as (d1 & Hu1 & Hd1 & Hs1 & _ & Hcase).
    change (save_schedule ((t, sd) :: rest) w) with (save_schedule rest (save_at t sd w)).
    destruct (skillsGained sd) as [g|].
    + destruct Hcase as [Hp _].
      destruct (newAverageScore_exact a n s Ha Hs100
                  ltac:(change (2 ^ 44) with 17592186044416; lia)) as [Hexact Hrange].
      apply (IH (save_at t sd w) d1 (next_average a n s) (n + 1) Hu1 Hd1 Hs1);
        try done; try (change (2 ^ 44) with 17592186044416; lia).
      * rewrite Hp. unfold savedProgress. cbn [averageScore]. by rewrite Hav, Hn, Hsc.
      * rewrite Hp. unfold savedProgress. cbn [totalSessions]. rewrite Hn.
        apply add_of_Z; lia.
    + subst d1.
      apply (IH (save_at t sd w) d a n Hu1 Hd1 Hs1); try done.
      change (2 ^ 44) with 17592186044416. lia.
Qed.

Lemma X21_saved_average_stays_in_range_witness :
  ∃ d' a',
    users (save_schedule [(hours 1, scored 60); (hours 2, unscored_session)]
                         (logged_in "u" one_session_doc 0)) !! "u" = Some d'
    ∧ averageScore (progress d') = of_Z a'
    ∧ 0 ≤ a' ≤ 100.
Proof.
  apply (X21_saved_average_stays_in_range "u"
           [(hours 1, scored 60); (hours 2, unscored_session)]
           (logged_in "u" one_session_doc 0) one_session_doc 80 1);
    try reflexivity; try lia.
  apply List.Forall_cons; [|apply List.Forall_cons; [|apply List.Forall_nil]].
  - exists 60. split; [lia|reflexivity].
  - exists 70. split; [lia|reflexivity].
Defined.

(** ** The day difference of [calculateStreak] on Numbers *)

(** Rounding a significand that denotes an integer below 2^53 gives the
    Number of that integer, whatever the scaling. *)
Lemma binary_round_scaled (s : bool) (M n : positive) (k : Z) :
  0 ≤ k →
  Z.pos M = Z.pos n * 2 ^ k →
  Z.pos n < 2 ^ 53 →
  binary_round prec emax s M (- k) = binary_round prec emax s n 0.
Proof.
  intros Hk HM Hn.
  destruct (binary_round_integer s n (digits_le_53 n Hn)) as (mz & Hof & Hb & Hmz).
  pose proof (digits_le_53 n Hn) as Hd53.
  pose proof (Pos2Z.is_pos (digits2_pos n)) as Hdpos.
  set (dn := Z.pos (digits2_pos n)) in *.
  assert (Z.pos (digits2_pos mz) = 53) as Hdz.
  { apply bounded_inv in Hb as (_ & _ & Hb). apply Hb. lia. }
  rewrite Hof.
  destruct (Z.le_gt_cases 0 (dn - 53 + k)) as [Hq|Hq].
  - rewrite (binary_round_exact s M mz (- k) (dn - 53 + k)); [f_equal; lia|lia| |exact Hdz|lia].
    rewrite HM, Hmz, <- Z.mul_assoc, <- Z.pow_add_r by lia. do 2 f_equal. lia.
  - assert (Z.pos (digits2_pos M) = dn + k) as HdM.
    { destruct k as [|k|k]; [| |lia].
      - rewrite Z.mul_1_r in HM. injection HM as ->. unfold dn. lia.
      - apply Zpos_iter_xO_inj in HM. subst M.
        rewrite digits2_pos_iter_xO, Pos2Z.inj_add. unfold dn. lia. }
    unfold binary_round, shl_align. rewrite HdM.
    replace (fexp prec emax (dn + k + - k) - - k) with (dn - 53 + k)
      by (unfold fexp, SpecFloat.emin, prec, emax; lia).
    destruct (dn - 53 + k) as [|d|d] eqn:Hd; [lia|lia|].
    replace (fexp prec emax (dn + k + - k)) with (dn - 53)
      by (unfold fexp, SpecFloat.emin, prec, emax; lia).
    assert (PosDef.Pos.iter xO M d = mz) as ->.
    { change (PosDef.Pos.iter xO M d) with (Pos.iter xO M d).
      assert (Z.pos (Pos.iter xO M d) = Z.pos mz) as H; [|by injection H].
      rewrite Zpos_iter_xO, HM, Hmz, <- Z.mul_assoc, <- Z.pow_add_r by lia.
      do 2 f_equal. lia. }
    by apply binary_round_aux_canonical.
Qed.

(** Subtracting two non-negative integers below 2^53 is exact. *)
Lemma sub_of_Z (a b : Z) :
  0 ≤ a < 2 ^ 53 → 0 ≤ b < 2 ^ 53 →
  sub (of_Z a) (of_Z b) = of_Z (a - b).
Proof.
  intros [Ha Ha53] [Hb Hb53].
  destruct a as [|a|a]; [|destruct b as [|b|b]|]; try lia.
  - destruct b as [|b|b]; [reflexivity| |lia].
    rewrite Z.sub_0_l. change (- Z.pos b) with (Z.neg b).
    destruct (of_Z_pos_canonical b Hb53) as (mb & -> & _ & Hmb).
    destruct (of_Z_neg_canonical b Hb53) as (mb' & -> & _ & Hmb').
    assert (mb' = mb) as -> by lia. reflexivity.
  - rewrite Z.sub_0_r.
    destruct (of_Z_pos_canonical a Ha53) as (ma & -> & _). reflexivity.
  - destruct (of_Z_pos_canonical a Ha53) as (ma & Hofa & Hda & Hma).
    destruct (of_Z_pos_canonical b Hb53) as (mb & Hofb & Hdb & Hmb).
    rewrite Hofa, Hofb.
    pose proof (digits_le_53 a Ha53) as Ha'. pose proof (digits_le_53 b Hb53) as Hb'.
    set (da := Z.pos (digits2_pos a)) in *. set (db := Z.pos (digits2_pos b)) in *.
    assert (0 < da ∧ 0 < db) as (Pa & Pb) by (unfold da, db; lia).
    unfold sub, SFsub. cbn [cond_Zopp].
    change IntDef.Z.min with Z.min.
    set (ez := Z.min (da - 53) (db - 53)).
    rewrite !shl_align_value by lia.
    assert (0 < 2 ^ (- ez)) as Hpow by (apply Z.pow_pos_nonneg; lia).
    assert (Z.pos ma * 2 ^ (da - 53 - ez) - Z.pos mb * 2 ^ (db - 53 - ez)
            = (Z.pos a - Z.pos b) * 2 ^ (- ez)) as ->.
    { rewrite Hma, Hmb, <- !Z.mul_assoc, <- !Z.pow_add_r by lia.
      replace (53 - da + (da - 53 - ez)) with (- ez) by lia.
      replace (53 - db + (db - 53 - ez)) with (- ez) by lia. ring. }
    destruct (Z.pos a - Z.pos b) as [|n|n] eqn:Hn.
    + reflexivity.
    + destruct (Z.pos n * 2 ^ (- ez)) as [|M|M] eqn:HM; [lia| |lia].
      unfold of_Z, binary_normalize. replace ez with (- - ez) by lia.
      apply binary_round_scaled; [lia|by rewrite HM|lia].
    + destruct (Z.neg n * 2 ^ (- ez)) as [|M|M] eqn:HM; [lia|lia|].
      unfold of_Z, binary_normalize. replace ez with (- - ez) by lia.
      apply binary_round_scaled; [lia| |lia].
      change (Z.neg n) with (- Z.pos n) in HM. change (Z.neg M) with (- Z.pos M) in HM. lia.
Qed.

(** A value on the grid of step [1/P] that is within [1/(2P)] of [E / D]
    has the same floor as [E / D], when [D ≤ P]. *)
Lemma floor_transfer (sm E D P Q : Z) :
  0 < D ≤ P →
  2 * Z.abs (sm * D - E * P) ≤ D →
  Q * D ≤ E < (Q + 1) * D →
  Q * P ≤ sm < (Q + 1) * P.
Proof.
  intros HD Herr [Hlo Hhi]. split.
  - destruct (Z.le_gt_cases (Q * P) sm) as [|Hlow]; [done|exfalso].
    assert (sm ≤ Q * P - 1) as Hgrid by lia.
    pose proof (Z.mul_le_mono_nonneg_r _ _ D ltac:(lia) Hgrid) as H1.
    pose proof (Z.mul_le_mono_nonneg_r _ _ P ltac:(lia) Hlo) as H2.
    lia.
  - destruct (Z.lt_ge_cases sm ((Q + 1) * P)) as [|Hup]; [done|exfalso].
    pose proof (Z.mul_le_mono_nonneg_r _ _ D ltac:(lia) Hup) as H1.
    assert (E ≤ (Q + 1) * D - 1) as Hhi' by lia.
    pose proof (Z.mul_le_mono_nonneg_r _ _ P ltac:(lia) Hhi') as H2.
    lia.
Qed.

(** [Math.floor(E / D)] on Numbers is the floor of the exact quotient, for
    an integer [E] below 2^51 in magnitude and a positive [D] below 2^53. *)
Lemma Math_floor_div_of_Z (E D : Z) :
  Z.abs E < 2 ^ 51 → 0 < D < 2 ^ 53 →
  Math_floor (div (of_Z E) (of_Z D)) = of_Z (E / D).
Proof.
  intros HE HD.
  assert (2 ^ 53 = 9007199254740992) as H53 by reflexivity.
  assert (2 ^ 51 = 2251799813685248) as H51 by reflexivity.
  destruct D as [|D|D]; [lia| |lia].
  set (Q := E / Z.pos D).
  pose proof (Z.div_mod E (Z.pos D) ltac:(lia)) as Hdm.
  pose proof (Z.mod_pos_bound E (Z.pos D) ltac:(lia)) as Hmb.
  fold Q in Hdm.
  assert (∀ (s : bool) (T : positive),
            E = (if s then Z.neg T else Z.pos T) →
            Math_floor (div (of_Z E) (of_Z (Z.pos D))) = of_Z Q) as Hmain.
  { intros s T HET.
    assert (Z.pos T < 2 ^ 51) as HT by (destruct s; subst E; lia).
    rewrite HET.
    destruct (div_of_Z_spec s T D ltac:(lia) ltac:(lia)) as (m & k & -> & Hk & Hd & Herr).
    set (e' := Z.pos (digits2_pos T) - Z.pos (digits2_pos D) - 53) in *.
    assert (Z.pos (digits2_pos T) ≤ 51) as HdT.
    { pose proof (digits2_pos_bounds T) as [Hlo _].
      assert (2 ^ (Z.pos (digits2_pos T) - 1) < 2 ^ 51) as H by lia.
      apply Z.pow_lt_mono_r_iff in H; lia. }
    pose proof (Pos2Z.is_pos (digits2_pos T)). pose proof (Pos2Z.is_pos (digits2_pos D)).
    pose proof (digits_le_53 D ltac:(lia)) as HdD.
    pose proof (digits2_pos_bounds D) as [_ HDhi].
    set (dD := Z.pos (digits2_pos D)) in *.
    set (e := e' + k).
    assert (-105 ≤ e ≤ - dD) as He by (unfold e, e'; lia).
    unfold Math_floor.
    rewrite (bounded_53 m e Hd) by lia. cbn [negb].
    replace (0 <=? e) with false by (symmetry; apply Z.leb_gt; lia).
    set (P := 2 ^ (- e)).
    assert (Z.pos D ≤ P) as HP.
    { assert (2 ^ dD ≤ P) by (apply Z.pow_le_mono_r; lia). lia. }
    assert (2 ^ (- e') = P * 2 ^ k) as HP'.
    { unfold P. rewrite <- Z.pow_add_r by lia. f_equal. unfold e. lia. }
    rewrite HP' in Herr.
    assert (0 < 2 ^ k) as Hpk by (apply Z.pow_pos_nonneg; lia).
    assert (2 * Z.abs (Z.pos m * Z.pos D - Z.pos T * P) ≤ Z.pos D) as Herr'.
    { replace (Z.pos m * 2 ^ k * Z.pos D - Z.pos T * (P * 2 ^ k))
        with ((Z.pos m * Z.pos D - Z.pos T * P) * 2 ^ k) in Herr by ring.
      rewrite Z.abs_mul, (Z.abs_eq (2 ^ k)) in Herr by lia. nia. }
    set (sm := if s then Z.neg m else Z.pos m).
    assert (2 * Z.abs (sm * Z.pos D - E * P) ≤ Z.pos D) as Hsigned.
    { unfold sm. rewrite HET. destruct s; [|exact Herr'].
      replace (Z.neg m * Z.pos D - Z.neg T * P) with (- (Z.pos m * Z.pos D - Z.pos T * P))
        by (change (Z.neg m) with (- Z.pos m); change (Z.neg T) with (- Z.pos T); ring).
      by rewrite Z.abs_opp. }
    pose proof (floor_transfer sm E (Z.pos D) P Q ltac:(lia) Hsigned ltac:(lia)) as Hfl.
    assert (sm / P = Q) as ->.
    { symmetry. apply (Z.div_unique _ _ _ (sm - P * Q)); [left|]; lia. }
    destruct (Z.eqb_spec Q 0) as [->|]; reflexivity. }
  destruct E as [|T|T].
  - destruct (of_Z_pos_canonical D ltac:(lia)) as (m2 & -> & _).
    assert (Q = 0) as -> by (unfold Q; apply Z.div_0_l; lia). reflexivity.
  - by apply (Hmain false T).
  - by apply (Hmain true T).
Qed.

Lemma strict_eq_of_Z_0 (q : Z) :
  Z.abs q < 2 ^ 53 → strict_eq (of_Z q) (of_Z 0) = (q =? 0).
Proof.
  intros Hq. destruct q as [|q|q]; [reflexivity| |].
  - destruct (of_Z_pos_canonical q ltac:(lia)) as (m & -> & _). reflexivity.
  - destruct (of_Z_neg_canonical q ltac:(lia)) as (m & -> & _). reflexivity.
Qed.

Lemma strict_eq_of_Z_1 (q : Z) :
  Z.abs q < 2 ^ 53 → strict_eq (of_Z q) (of_Z 1) = (q =? 1).
Proof.
  intros Hq. destruct q as [|q|q]; [reflexivity| |].
  - destruct (Pos.eq_dec q 1%positive) as [->|Hne]; [reflexivity|].
    destruct (of_Z_pos_canonical q ltac:(lia)) as (m & -> & _).
    assert (2 ≤ Z.pos (digits2_pos q)) as Hd.
    { destruct q as [q|q|]; [| |done]; cbn [digits2_pos]; lia. }
    replace (Z.pos q =? 1) with false by (symmetry; apply Z.eqb_neq; lia).
    unfold strict_eq, SFeqb. change (of_Z 1) with (S754_finite false 4503599627370496 (-52)).
    cbn [SFcompare].
    destruct (Z.compare_spec (Z.pos (digits2_pos q) - 53) (-52)); [lia|lia|reflexivity].
  - destruct (of_Z_neg_canonical q ltac:(lia)) as (m & -> & _). reflexivity.
Qed.

(** X22. The day difference that [calculateStreak] computes on binary64
    Numbers, [Math.floor((now - last) / (1000 * 60 * 60 * 24))], is the
    floor of the exact quotient for every pair of dates after 1970 that
    are less than 2^51 ms (some 71000 years) apart, in either order; so
    the function as written, with its two strict comparisons on Numbers,
    returns what the integer day difference gives. *)
Theorem X22_calculateStreak_on_Numbers (last : Z) (w : World) :
  0 ≤ last < 2 ^ 53 →
  0 ≤ clock w < 2 ^ 53 →
  Z.abs (clock w - last) < 2 ^ 51 →
  daysDiff_binary64 (clock w) last = of_Z ((clock w - last) / MS_PER_DAY)
  ∧ calculateStreak_binary64 (Some last) w = calculateStreak (Some last) w.
Proof.
  intros Hlast Hnow Hdiff.
  assert (daysDiff_binary64 (clock w) last = of_Z ((clock w - last) / MS_PER_DAY)) as Hdays.
  { unfold daysDiff_binary64. rewrite sub_of_Z by done.
    change (mul (mul (mul (of_Z 1000) (of_Z 60)) (of_Z 60)) (of_Z 24)) with (of_Z 86400000).
    change MS_PER_DAY with 86400000.
    apply Math_floor_div_of_Z; [exact Hdiff|].
    change (2 ^ 53) with 9007199254740992. lia. }
  split; [exact Hdays|].
  unfold calculateStreak_binary64, calculateStreak. cbv zeta. rewrite Hdays.
  assert (Z.abs ((clock w - last) / MS_PER_DAY) < 2 ^ 53) as Hq.
  { change MS_PER_DAY with 86400000.
    change (2 ^ 51) with 2251799813685248 in Hdiff.
    change (2 ^ 53) with 9007199254740992.
    pose proof (Z.div_mod (clock w - last) 86400000 ltac:(lia)) as Hdm.
    pose proof (Z.mod_pos_bound (clock w - last) 86400000 ltac:(lia)) as Hmb.
    lia. }
  by rewrite strict_eq_of_Z_0, strict_eq_of_Z_1.
Qed.

Lemma X22_calculateStreak_on_Numbers_witness :
  daysDiff_binary64 (clock (at_time 1700086400001)) 1700000000000
  = of_Z ((clock (at_time 1700086400001) - 1700000000000) / MS_PER_DAY)
  ∧ calculateStreak_binary64 (Some 1700000000000) (at_time 1700086400001)
    = calculateStreak (Some 1700000000000) (at_time 1700086400001).
Proof.
  apply (X22_calculateStreak_on_Numbers 1700000000000 (at_time 1700086400001));
    cbn [clock at_time]; change (2 ^ 53) with 9007199254740992;
    change (2 ^ 51) with 2251799813685248; lia.
Defined.
